(** * Revenue extraction from a Textract block graph

    A shallow embedding of [textract_poc/extract_revenue.py]: the block
    index, the text reconstruction, the page locator, the table matrix
    builder, the header/label resolver and the extraction loop, followed by
    the properties of the specification that were checked against them.

    Conventions of the embedding.
    - A Textract block is a record; the keys that the source reads with
      [.get] and that may be missing are options ([Page], [Text],
      [RowIndex], [ColumnIndex]); a missing [Relationships] (or [None]) is
      the empty list, as [block.get("Relationships", []) or []] makes it.
      [Id], [BlockType] and the [Type] of a relationship (here [Type_]) are
      strings: every block has an identifier, and a block without
      [BlockType] behaves as one whose kind is none of those the code
      compares with.
    - Python [int] is [Z]; list subscripts follow Python: a negative
      subscript counts from the end and a subscript outside
      [-len, len) raises [IndexError].
    - Python [dict] is stdpp's [gmap]; a Python [set] of pages is a [gset].
    - Python [str] is [string], its characters read as code points 0..255;
      [str.lower], [str.strip] and [in] are written out for that range.
    - Code that can raise returns a [result]. *)

From Stdlib Require Import ZArith Ascii String.
From stdpp Require Import gmap strings list fin_maps sorting pretty.

Local Open Scope string_scope.
Local Open Scope list_scope.
Local Open Scope Z_scope.

(** ** Exceptions *)

Inductive exn := IndexError.

Inductive result (A : Type) :=
  | Ok (a : A)
  | Raise (e : exn).
Arguments Ok {A} a.
Arguments Raise {A} e.

#[global] Instance result_ret : MRet result := λ A a, Ok a.

#[global] Instance result_bind : MBind result := λ A B k r,
  match r with
  | Ok a => k a
  | Raise e => Raise e
  end.

(** ** Python strings *)

Module Str.

(** [c.isspace()] for a code point below 256. *)
Definition isspace (c : ascii) : bool :=
  let n := N_of_ascii c in
  ((9 <=? n) && (n <=? 13) || (28 <=? n) && (n <=? 32)
   || (n =? 133) || (n =? 160))%N.

(** [c.lower()] for a code point below 256: A-Z and the Latin-1 capitals
    (all of 192..222 but the multiplication sign 215) move up by 32. *)
Definition lower_char (c : ascii) : ascii :=
  let n := N_of_ascii c in
  if ((65 <=? n) && (n <=? 90)
      || (192 <=? n) && (n <=? 222) && negb (n =? 215))%N
  then ascii_of_N (n + 32) else c.

Fixpoint lower (s : string) : string :=
  match s with
  | EmptyString => EmptyString
  | String c s' => String (lower_char c) (lower s')
  end.

Fixpoint lstrip (s : string) : string :=
  match s with
  | EmptyString => EmptyString
  | String c s' => if isspace c then lstrip s' else s
  end.

Fixpoint rstrip (s : string) : string :=
  match s with
  | EmptyString => EmptyString
  | String c s' =>
      match rstrip s' with
      | EmptyString => if isspace c then EmptyString else String c EmptyString
      | r => String c r
      end
  end.

(** [s.strip()] *)
Definition strip (s : string) : string := rstrip (lstrip s).

(** [sub in s] *)
Fixpoint contains (sub s : string) : bool :=
  String.prefix sub s
  || match s with
     | EmptyString => false
     | String _ s' => contains sub s'
     end.

(** [sep.join(l)] *)
Fixpoint join (sep : string) (l : list string) : string :=
  match l with
  | [] => EmptyString
  | [x] => x
  | x :: l' => x +:+ sep +:+ join sep l'
  end.

(** Truth value of a string: empty is false. *)
Definition truthy (s : string) : bool :=
  match s with
  | EmptyString => false
  | String _ _ => true
  end.

(** [str(n)] for an integer, as an f-string prints it. *)
Definition of_int (n : Z) : string := pretty n.

End Str.

(** ** Python list subscripts *)

Module PyList.

(** The position a subscript [i] denotes in a list of length [len]. *)
Definition position (len : nat) (i : Z) : result nat :=
  if 0 <=? i then
    if i <? Z.of_nat len then Ok (Z.to_nat i) else Raise IndexError
  else
    if - Z.of_nat len <=? i then Ok (Z.to_nat (Z.of_nat len + i))
    else Raise IndexError.

(** [l[i]] *)
Definition getitem {A} (l : list A) (i : Z) : result A :=
  n ← position (length l) i;
  match l !! n with
  | Some x => Ok x
  | None => Raise IndexError
  end.

(** [l[i] = x] *)
Definition setitem {A} (l : list A) (i : Z) (x : A) : result (list A) :=
  n ← position (length l) i;
  Ok (<[n := x]> l).

End PyList.

(** ** Data model *)

Record Relationship := {
  Type_ : string;
  Ids : list string;
}.

Record Block := {
  Id : string;
  BlockType : string;
  Page : option Z;
  Text : option string;
  RowIndex : option Z;
  ColumnIndex : option Z;
  Relationships : list Relationship;
}.

Abbreviation Matrix := (list (list string)).

(** ** build_block_index *)

Definition collect_child_ids (block : Block) : list string :=
  foldl (λ child_ids rel,
           if bool_decide (Type_ rel = "CHILD" ∨ Type_ rel = "MERGED_CELL")
           then child_ids ++ Ids rel
           else child_ids)
        [] (Relationships block).

Definition index_block
    (acc : gmap string Block * gmap string (list string)) (block : Block)
    : gmap string Block * gmap string (list string) :=
  let '(id_to_block, block_children) := acc in
  let block_id := Id block in
  let id_to_block := <[block_id := block]> id_to_block in
  let child_ids := collect_child_ids block in
  match child_ids with
  | [] => (id_to_block, block_children)
  | _ :: _ => (id_to_block, <[block_id := child_ids]> block_children)
  end.

Definition build_block_index (blocks : list Block)
    : gmap string Block * gmap string (list string) :=
  foldl index_block (∅, ∅) blocks.

(** ** extract_text_from_block *)

Definition collect_fragment (id_to_block : gmap string Block)
    (text_fragments : list string) (child_id : string) : list string :=
  match id_to_block !! child_id with
  | None => text_fragments
  | Some child =>
      if bool_decide (BlockType child = "WORD") then
        let token := default "" (Text child) in
        if Str.truthy token then text_fragments ++ [token]
        else text_fragments
      else if bool_decide (BlockType child = "SELECTION_ELEMENT") then
        text_fragments
      else text_fragments
  end.

Definition collect_fragments (id_to_block : gmap string Block)
    (text_fragments : list string) (rel : Relationship) : list string :=
  if bool_decide (Type_ rel ≠ "CHILD") then text_fragments
  else foldl (collect_fragment id_to_block) text_fragments (Ids rel).

Definition extract_text_from_block (block : Block)
    (id_to_block : gmap string Block) : string :=
  if bool_decide (BlockType block = "WORD") then default "" (Text block)
  else
    let text_fragments :=
      foldl (collect_fragments id_to_block) [] (Relationships block) in
    Str.strip (Str.join " " text_fragments).

(** ** page_contains_phrase *)

Definition is_text_bearing (block : Block) : bool :=
  bool_decide (BlockType block = "LINE" ∨ BlockType block = "CELL"
               ∨ BlockType block = "TABLE").

Fixpoint scan_page (blocks : list Block) (id_to_block : gmap string Block)
    (page_number : Z) (phrase_lower : string) : bool :=
  match blocks with
  | [] => false
  | block :: rest =>
      if bool_decide (Page block ≠ Some page_number) then
        scan_page rest id_to_block page_number phrase_lower
      else if is_text_bearing block then
        let text := extract_text_from_block block id_to_block in
        if Str.contains phrase_lower (Str.lower text) then true
        else scan_page rest id_to_block page_number phrase_lower
      else scan_page rest id_to_block page_number phrase_lower
  end.

Definition page_contains_phrase (blocks : list Block)
    (id_to_block : gmap string Block) (page_number : Z) (phrase : string)
    : bool :=
  let phrase_lower := Str.lower phrase in
  scan_page blocks id_to_block page_number phrase_lower.

(** ** get_tables_on_page *)

Definition get_tables_on_page (blocks : list Block) (page_number : Z)
    : list Block :=
  filter (λ b, BlockType b = "TABLE" ∧ Page b = Some page_number) blocks.

(** ** build_table_matrix *)

Definition collect_cell (id_to_block : gmap string Block)
    (cells : list Block) (child_id : string) : list Block :=
  match id_to_block !! child_id with
  | Some child =>
      if bool_decide (BlockType child = "CELL") then cells ++ [child]
      else cells
  | None => cells
  end.

Definition collect_cells (id_to_block : gmap string Block)
    (cells : list Block) (rel : Relationship) : list Block :=
  if bool_decide (Type_ rel ≠ "CHILD") then cells
  else foldl (collect_cell id_to_block) cells (Ids rel).

(** The CELL children of a table, in relationship order (first loop). *)
Definition table_cells (table_block : Block)
    (id_to_block : gmap string Block) : list Block :=
  foldl (collect_cells id_to_block) [] (Relationships table_block).

(** [max_row] and [max_col] (second loop). *)
Definition grid_extent (cells : list Block) : Z * Z :=
  foldl (λ '(max_row, max_col) cell,
           (Z.max max_row (default 0 (RowIndex cell)),
            Z.max max_col (default 0 (ColumnIndex cell))))
        (0, 0) cells.

Definition blank_matrix (max_row max_col : Z) : Matrix :=
  replicate (Z.to_nat max_row) (replicate (Z.to_nat max_col) "").

(** One round of the third loop: the guarded [matrix[r][c] = text]. *)
Definition place_cell (id_to_block : gmap string Block)
    (matrix : Matrix) (cell : Block) : result Matrix :=
  let r := default 1 (RowIndex cell) - 1 in
  let c := default 1 (ColumnIndex cell) - 1 in
  let text := extract_text_from_block cell id_to_block in
  if r <? Z.of_nat (length matrix) then
    row ← PyList.getitem matrix r;
    if (c <? Z.of_nat (length row)) && Str.truthy text then
      row' ← PyList.setitem row c text;
      PyList.setitem matrix r row'
    else Ok matrix
  else Ok matrix.

Fixpoint place_cells (id_to_block : gmap string Block)
    (matrix : Matrix) (cells : list Block) : result Matrix :=
  match cells with
  | [] => Ok matrix
  | cell :: rest =>
      matrix' ← place_cell id_to_block matrix cell;
      place_cells id_to_block matrix' rest
  end.

Definition build_table_matrix (table_block : Block)
    (id_to_block : gmap string Block) : result Matrix :=
  let cells := table_cells table_block id_to_block in
  let '(max_row, max_col) := grid_extent cells in
  let matrix := blank_matrix max_row max_col in
  place_cells id_to_block matrix cells.

(** ** normalize, find_column_index_by_header, find_row_index_by_label *)

Definition normalize (s : string) : string := Str.lower (Str.strip s).

Definition cell_matches (target value : string) : bool :=
  bool_decide (normalize value = target)
  || Str.contains target (normalize value).

Fixpoint scan_header_row (row : list string) (idx : nat) (target : string)
    : option nat :=
  match row with
  | [] => None
  | value :: rest =>
      if cell_matches target value then Some idx
      else scan_header_row rest (S idx) target
  end.

Fixpoint scan_header_rows (header_rows : Matrix) (target : string)
    : option nat :=
  match header_rows with
  | [] => None
  | row :: rest =>
      match scan_header_row row 0 target with
      | Some idx => Some idx
      | None => scan_header_rows rest target
      end
  end.

Definition find_column_index_by_header (table : Matrix)
    (header_query : string) : option nat :=
  let target := normalize header_query in
  match table with
  | [] => None
  | _ :: _ =>
      let header_rows := take 2 table in
      scan_header_rows header_rows target
  end.

Fixpoint scan_label_rows (rows : Matrix) (r_idx : nat) (target : string)
    : option nat :=
  match rows with
  | [] => None
  | row :: rest =>
      match row with
      | [] => scan_label_rows rest (S r_idx) target
      | first :: _ =>
          if cell_matches target first then Some r_idx
          else scan_label_rows rest (S r_idx) target
      end
  end.

Definition find_row_index_by_label (table : Matrix) (label : string)
    : option nat :=
  let target := normalize label in
  scan_label_rows table 0 target.

(** ** analyze_pdf_and_extract, from the returned blocks on *)

Definition PHRASE : string := "STATEMENT OF PROFIT OR LOSS".

(** [sorted({b.get("Page") for b in blocks if b.get("Page") is not None})] *)
Definition detect_pages (blocks : list Block) : list Z :=
  merge_sort Z.le (elements (list_to_set (omap Page blocks) : gset Z)).

(** The page loop: the first page of [pages] that holds the phrase. *)
Fixpoint find_target_page (pages : list Z) (blocks : list Block)
    (id_to_block : gmap string Block) : option Z :=
  match pages with
  | [] => None
  | page :: rest =>
      if page_contains_phrase blocks id_to_block page PHRASE then Some page
      else find_target_page rest blocks id_to_block
  end.

(** Column for the target year, with the second-column fallback. *)
Definition year_column (matrix : Matrix) (row0 : list string)
    (target_year : option string) : option nat :=
  let year_col_idx :=
    match target_year with
    | Some y =>
        if Str.truthy y then find_column_index_by_header matrix y else None
    | None => None
    end in
  match year_col_idx with
  | None => if 2 <=? Z.of_nat (length row0) then Some 1%nat else None
  | Some idx => Some idx
  end.

Definition diagnostic (target_page : Z) (matrix : Matrix)
    (row0 : list string) : string :=
  "page=" +:+ Str.of_int target_page
  +:+ ", table_extracted_rows=" +:+ Str.of_int (Z.of_nat (length matrix))
  +:+ " cols=" +:+ Str.of_int (Z.of_nat (length row0)).

(** The body of the table loop for one matrix: [Some] is the [return],
    [None] a [continue] or the fall through to the next table. *)
Definition table_attempt (matrix : Matrix) (target_page : Z)
    (target_year : option string) : result (option (string * string)) :=
  match matrix with
  | [] => Ok None
  | [] :: _ => Ok None
  | row0 :: _ =>
      let year_col_idx := year_column matrix row0 target_year in
      let revenue_row_idx := find_row_index_by_label matrix "Revenue" in
      match revenue_row_idx, year_col_idx with
      | Some revenue_row_idx, Some year_col_idx =>
          row ← PyList.getitem matrix (Z.of_nat revenue_row_idx);
          if Z.of_nat year_col_idx <? Z.of_nat (length row) then
            cell ← PyList.getitem row (Z.of_nat year_col_idx);
            let value := Str.strip cell in
            if Str.truthy value
            then Ok (Some (value, diagnostic target_page matrix row0))
            else Ok None
          else Ok None
      | _, _ => Ok None
      end
  end.

Fixpoint extract_loop (tables : list Block)
    (id_to_block : gmap string Block) (target_page : Z)
    (target_year : option string) : result (option string * string) :=
  match tables with
  | [] => Ok (None, "Revenue not found in tables on target page")
  | table_block :: rest =>
      matrix ← build_table_matrix table_block id_to_block;
      found ← table_attempt matrix target_page target_year;
      match found with
      | Some (value, debug) => Ok (Some value, debug)
      | None => extract_loop rest id_to_block target_page target_year
      end
  end.

Definition analyze_pdf_and_extract (blocks : list Block)
    (target_year : option string) : result (option string * string) :=
  match blocks with
  | [] => Ok (None, "No blocks returned")
  | _ :: _ =>
      let '(id_to_block, _) := build_block_index blocks in
      let pages := detect_pages blocks in
      match find_target_page pages blocks id_to_block with
      | None =>
          Ok (None,
              "Could not find page containing 'STATEMENT OF PROFIT OR LOSS'")
      | Some target_page =>
          match get_tables_on_page blocks target_page with
          | [] => Ok (None, "No tables found on target page")
          | tables =>
              extract_loop tables id_to_block target_page target_year
          end
      end
  end.

(** ** main, from the returned blocks on *)

(** What a run leaves behind: the exit status and the lines printed. *)
Record Outcome := {
  exit_code : Z;
  stdout : list string;
  stderr : list string;
}.

(** The two branches of [main] after the analysis. *)
Definition report (analysis : option string * string) : Outcome :=
  let '(value, debug) := analysis in
  let failure :=
    {| exit_code := 2;
       stdout := [];
       stderr := ["Failed to extract Revenue."]
                 ++ (if Str.truthy debug then ["Reason: " +:+ debug] else []) |} in
  match value with
  | Some v =>
      if Str.truthy v then
        {| exit_code := 0;
           stdout := ["Extracted Revenue: " +:+ v]
                     ++ (if Str.truthy debug then ["Debug: " +:+ debug]
                         else []);
           stderr := [] |}
      else failure
  | None => failure
  end.

(** [main] once the file is read and the service has answered; an
    exception of the analysis is not caught. *)
Definition main (blocks : list Block) (target_year : option string)
    : result Outcome :=
  analysis ← analyze_pdf_and_extract blocks target_year;
  mret (report analysis).

(** ** A sample document *)

Module Sample.

Definition word (id text : string) : Block :=
  {| Id := id; BlockType := "WORD"; Page := Some 1; Text := Some text;
     RowIndex := None; ColumnIndex := None; Relationships := [] |}.

Definition line (id : string) (words : list string) : Block :=
  {| Id := id; BlockType := "LINE"; Page := Some 1; Text := None;
     RowIndex := None; ColumnIndex := None;
     Relationships := [ {| Type_ := "CHILD"; Ids := words |} ] |}.

Definition cell (id : string) (r c : Z) (words : list string) : Block :=
  {| Id := id; BlockType := "CELL"; Page := Some 1; Text := None;
     RowIndex := Some r; ColumnIndex := Some c;
     Relationships :=
       match words with
       | [] => []
       | _ => [ {| Type_ := "CHILD"; Ids := words |} ]
       end |}.

Definition table (id : string) (cells : list string) : Block :=
  {| Id := id; BlockType := "TABLE"; Page := Some 1; Text := None;
     RowIndex := None; ColumnIndex := None;
     Relationships := [ {| Type_ := "CHILD"; Ids := cells |} ] |}.

Definition the_table : Block :=
  table "t" ["c11"; "c12"; "c13"; "c21"; "c22"; "c23"].

(** A one-page statement: a title line and a 2 x 3 table whose first
    column of the second row is [label]. *)
Definition statement (label : string) : list Block :=
  [ line "l1" ["w1"; "w2"; "w3"; "w4"; "w5"];
    word "w1" "Statement"; word "w2" "of"; word "w3" "Profit";
    word "w4" "or"; word "w5" "Loss";
    the_table;
    cell "c11" 1 1 [];
    cell "c12" 1 2 ["w12"]; word "w12" "2023";
    cell "c13" 1 3 ["w13"]; word "w13" "2024";
    cell "c21" 2 1 ["w21"]; word "w21" label;
    cell "c22" 2 2 ["w22"]; word "w22" "100";
    cell "c23" 2 3 ["w23"]; word "w23" "120" ].

(** A table whose only cell carries row index 0. *)
Definition stray_table : Block := table "t" ["c01"].

Definition stray_cells : list Block :=
  [ stray_table; cell "c01" 0 1 ["w01"]; word "w01" "X" ].

(** The title line followed by the table with the stray cell. *)
Definition stray_statement : list Block :=
  [ line "l1" ["w1"; "w2"; "w3"; "w4"; "w5"];
    word "w1" "Statement"; word "w2" "of"; word "w3" "Profit";
    word "w4" "or"; word "w5" "Loss" ] ++ stray_cells.

(** A 2 x 1 table with a third cell that carries row index 0. *)
Definition wrapping_table : Block := table "t" ["c11"; "c21"; "c01"].

Definition wrapping_cells : list Block :=
  [ wrapping_table;
    cell "c11" 1 1 ["w11"]; word "w11" "A";
    cell "c21" 2 1 ["w21"]; word "w21" "B";
    cell "c01" 0 1 ["w01"]; word "w01" "X" ].

End Sample.

(** ** Further sample collections *)

Module Cases.

(** Two blocks that share the identifier "a": a LINE with a child, then a
    block without relationships. *)
Definition first_a : Block := Sample.line "a" ["w"].
Definition second_a : Block := Sample.word "a" "again".
Definition duplicate_ids : list Block :=
  [ first_a; Sample.word "w" "once"; second_a ].

(** A 1 x 1 table whose position is claimed by three cells: "A", then "B",
    then a cell without text. *)
Definition crowded_table : Block := Sample.table "t" ["x1"; "x2"; "x3"].
Definition crowded_cells : list Block :=
  [ crowded_table;
    Sample.cell "x1" 1 1 ["wa"]; Sample.word "wa" "A";
    Sample.cell "x2" 1 1 ["wb"]; Sample.word "wb" "B";
    Sample.cell "x3" 1 1 [] ].

(** A second table, with a cell of row index 0, after the revenue table. *)
Definition late_stray_table : Block := Sample.table "t2" ["z01"].
Definition statement_then_stray : list Block :=
  Sample.statement "Revenue"
  ++ [ late_stray_table; Sample.cell "z01" 0 1 ["wz"]; Sample.word "wz" "X" ].

(** The same two tables, the one with the stray cell first. *)
Definition stray_then_statement : list Block :=
  [ late_stray_table; Sample.cell "z01" 0 1 ["wz"]; Sample.word "wz" "X" ]
  ++ Sample.statement "Revenue".

(** A table whose second header row carries the year in a column to the
    left of the one of the first header row. *)
Definition two_header_rows : Matrix :=
  [ ["Item"; "Restated"; "2024"];
    ["2024"; "2023"; "2022"];
    ["Revenue"; "100"; "120"] ].

(** The sample statement with its first two blocks exchanged. *)
Definition swapped_statement : list Block :=
  match Sample.statement "Revenue" with
  | first :: second :: rest => second :: first :: rest
  | short => short
  end.

(** A cell with row index 0 and text "X". *)
Definition stray_cell : Block := Sample.cell "c01" 0 1 ["w01"].
Definition stray_index : gmap string Block :=
  (build_block_index Sample.stray_cells).1.

End Cases.

(** ** Definitions that follow the words of the specification *)

(** The text of the immediate WORD children: for each CHILD relationship in
    order, for each target in order, the raw text of the target when it is
    in the index, is a WORD and has non-empty text. *)
Definition word_text_of (id_to_block : gmap string Block)
    (child_id : string) : list string :=
  match id_to_block !! child_id with
  | Some child =>
      if bool_decide (BlockType child = "WORD" ∧ default "" (Text child) ≠ "")
      then [default "" (Text child)] else []
  | None => []
  end.

Definition immediate_word_texts (block : Block)
    (id_to_block : gmap string Block) : list string :=
  rel ← filter (λ rel, Type_ rel = "CHILD") (Relationships block);
  child_id ← Ids rel;
  word_text_of id_to_block child_id.

(** The targets of the CHILD and MERGED_CELL relationships, merged into one
    list in relationship order. *)
Definition structural_children (block : Block) : list string :=
  rel ← filter (λ rel, Type_ rel = "CHILD" ∨ Type_ rel = "MERGED_CELL")
        (Relationships block);
  Ids rel.

(** No immediate CHILD target of [block] is a WORD of the index. *)
Definition no_word_children (block : Block)
    (id_to_block : gmap string Block) : Prop :=
  Forall (λ rel,
            Type_ rel = "CHILD" →
            Forall (λ child_id,
                      BlockType <$> id_to_block !! child_id ≠ Some "WORD")
                   (Ids rel))
         (Relationships block).

#[global] Instance no_word_children_dec block id_to_block :
  Decision (no_word_children block id_to_block).
Proof. unfold no_word_children. apply _. Defined.

(** What text reconstruction may look at in a child: its kind and text. *)
Definition kind_and_text (id_to_block : gmap string Block)
    (child_id : string) : option (string * option string) :=
  (λ child, (BlockType child, Text child)) <$> id_to_block !! child_id.

(** [block] is a LINE, CELL or TABLE of page [page_number] whose
    reconstructed text contains [phrase], case-insensitively. *)
Definition phrase_on_block (id_to_block : gmap string Block)
    (page_number : Z) (phrase : string) (block : Block) : Prop :=
  Page block = Some page_number
  ∧ (BlockType block = "LINE" ∨ BlockType block = "CELL"
     ∨ BlockType block = "TABLE")
  ∧ Str.contains (Str.lower phrase)
      (Str.lower (extract_text_from_block block id_to_block)) = true.

(** Two texts that differ only in the case of their letters and in
    leading and trailing whitespace. *)
Fixpoint all_space (s : string) : bool :=
  match s with
  | EmptyString => true
  | String c s' => Str.isspace c && all_space s'
  end.

Fixpoint same_letters (s s' : string) : Prop :=
  match s, s' with
  | EmptyString, EmptyString => True
  | String c r, String c' r' =>
      Str.lower_char c = Str.lower_char c' ∧ same_letters r r'
  | _, _ => False
  end.

Definition text_variant (s s' : string) : Prop :=
  ∃ a m b a' m' b',
    s = a +:+ m +:+ b ∧ s' = a' +:+ m' +:+ b'
    ∧ all_space a = true ∧ all_space b = true
    ∧ all_space a' = true ∧ all_space b' = true
    ∧ same_letters m m'.

(** No column is found for the target year: none was supplied (or an
    empty one), or the header search finds nothing. *)
Definition no_year_match (matrix : Matrix) (target_year : option string)
    : Prop :=
  match target_year with
  | None => True
  | Some y => y = "" ∨ find_column_index_by_header matrix y = None
  end.

(** The test that the row scan applies to a row: it has a first column and
    that column matches. *)
Definition first_column_matches (target : string) (row : list string)
    : bool :=
  match row with
  | [] => false
  | first :: _ => cell_matches target first
  end.

(** The position, counted from [k], of the first element that passes [f]:
    the shape shared by the two [enumerate] scans. *)
Fixpoint first_index {A} (f : A → bool) (l : list A) (k : nat) : option nat :=
  match l with
  | [] => None
  | x :: l' => if f x then Some k else first_index f l' (S k)
  end.

(** The CELL children of a table: the targets of its CHILD relationships
    that the index knows and that are of kind CELL, in order. *)
Definition cell_of (id_to_block : gmap string Block) (child_id : string)
    : list Block :=
  match id_to_block !! child_id with
  | Some child => if bool_decide (BlockType child = "CELL") then [child] else []
  | None => []
  end.

Definition cell_children (table_block : Block)
    (id_to_block : gmap string Block) : list Block :=
  rel ← filter (λ rel, Type_ rel = "CHILD") (Relationships table_block);
  child_id ← Ids rel;
  cell_of id_to_block child_id.

(** A cell that carries both indices, counted from 1. *)
Definition one_based (cell : Block) : Prop :=
  match RowIndex cell, ColumnIndex cell with
  | Some r, Some c => 1 ≤ r ∧ 1 ≤ c
  | _, _ => False
  end.

#[global] Instance one_based_dec cell : Decision (one_based cell).
Proof.
  unfold one_based. destruct (RowIndex cell), (ColumnIndex cell); apply _.
Defined.

(** [R] is the maximum of [xs], and 0 when there is none. *)
Definition is_maximum (R : Z) (xs : list Z) : Prop :=
  Forall (λ x, x ≤ R) xs ∧ (R ∈ xs ∨ (xs = [] ∧ R = 0)).

#[global] Instance is_maximum_dec R xs : Decision (is_maximum R xs).
Proof. unfold is_maximum. apply _. Defined.

(** The string at row [i], column [j] of a matrix, when there is one. *)
Definition entry (matrix : Matrix) (i j : nat) : option string :=
  row ← matrix !! i; row !! j.

(** The subscripts that [place_cell] computes for a cell are not
    negative: the indices of the cell, when present, are at least 1. *)
Definition from_one (cell : Block) : Prop :=
  1 ≤ default 1 (RowIndex cell) ∧ 1 ≤ default 1 (ColumnIndex cell).

#[global] Instance from_one_dec cell : Decision (from_one cell).
Proof. unfold from_one. apply _. Defined.

(** A cell that writes at row [i], column [j]: it carries those indices,
    counted from 1, and its text is not empty. *)
Definition writes_at (id_to_block : gmap string Block) (i j : nat)
    (cell : Block) : Prop :=
  RowIndex cell = Some (Z.of_nat i + 1)
  ∧ ColumnIndex cell = Some (Z.of_nat j + 1)
  ∧ extract_text_from_block cell id_to_block ≠ "".

(** The text of the last cell of [cells] that writes at a position, and the
    empty string when none does. *)
Definition last_written (id_to_block : gmap string Block)
    (cells : list Block) (i j : nat) : string :=
  from_option (λ cell, extract_text_from_block cell id_to_block) ""
    (last (filter (writes_at id_to_block i j) cells)).

(** A block that the page locator reads on a page. *)
Definition read_on_page (page_number : Z) (block : Block) : Prop :=
  Page block = Some page_number
  ∧ (BlockType block = "LINE" ∨ BlockType block = "CELL"
     ∨ BlockType block = "TABLE").

(** The first cell of [row] that matches is at column [c]. *)
Definition first_match_at (target : string) (row : list string) (c : nat)
    : Prop :=
  (∃ v, row !! c = Some v ∧ cell_matches target v = true)
  ∧ ∀ j u, (j < c)%nat → row !! j = Some u → cell_matches target u = false.

(** ** Theorems *)

(** *** Strings *)

Section strings.

Lemma truthy_ne s : Str.truthy s = true ↔ s ≠ "".
Proof. destruct s; simpl; split; congruence. Qed.

Lemma truthy_false s : Str.truthy s = false ↔ s = "".
Proof. destruct s; simpl; split; congruence. Qed.

Lemma lower_empty s : Str.lower s = "" ↔ s = "".
Proof. destruct s; simpl; split; congruence. Qed.

Lemma contains_in_empty sub : Str.contains sub "" = true ↔ sub = "".
Proof.
  destruct sub; simpl; split; try congruence; try done.
Qed.

End strings.

(** *** Text reconstruction *)

Section text.

Variable id_to_block : gmap string Block.

Lemma collect_fragment_spec frags child_id :
  collect_fragment id_to_block frags child_id
  = frags ++ word_text_of id_to_block child_id.
Proof.
  unfold collect_fragment, word_text_of.
  destruct (id_to_block !! child_id) as [child|]; [|by rewrite app_nil_r].
  destruct (decide (BlockType child = "WORD")) as [Hw|Hw].
  - rewrite (bool_decide_eq_true_2 _ Hw).
    destruct (Str.truthy (default "" (Text child))) eqn:Ht.
    + apply truthy_ne in Ht. by rewrite bool_decide_eq_true_2.
    + apply truthy_false in Ht.
      rewrite bool_decide_eq_false_2; [by rewrite app_nil_r|tauto].
  - rewrite (bool_decide_eq_false_2 _ Hw).
    rewrite (bool_decide_eq_false_2 (_ ∧ _)) by tauto.
    rewrite app_nil_r. by case_bool_decide.
Qed.

Lemma collect_fragment_fold ids frags :
  foldl (collect_fragment id_to_block) frags ids
  = frags ++ (ids ≫= word_text_of id_to_block).
Proof.
  revert frags. induction ids as [|child_id ids IH]; intros frags; simpl.
  - by rewrite app_nil_r.
  - rewrite IH, collect_fragment_spec. by rewrite <-app_assoc.
Qed.

Lemma collect_fragments_fold rels frags :
  foldl (collect_fragments id_to_block) frags rels
  = frags ++ (filter (λ rel, Type_ rel = "CHILD") rels
              ≫= λ rel, Ids rel ≫= word_text_of id_to_block).
Proof.
  revert frags. induction rels as [|rel rels IH]; intros frags; simpl.
  - by rewrite app_nil_r.
  - rewrite IH. unfold collect_fragments.
    destruct (decide (Type_ rel = "CHILD")) as [Hc|Hc].
    + rewrite bool_decide_eq_false_2 by naive_solver.
      rewrite filter_cons_True by done. simpl.
      rewrite collect_fragment_fold. by rewrite <-app_assoc.
    + rewrite bool_decide_eq_true_2 by done.
      by rewrite filter_cons_False.
Qed.

Lemma extract_text_word block :
  BlockType block = "WORD" →
  extract_text_from_block block id_to_block = default "" (Text block).
Proof.
  intros Hw. unfold extract_text_from_block.
  by rewrite bool_decide_eq_true_2.
Qed.

Lemma extract_text_composite block :
  BlockType block ≠ "WORD" →
  extract_text_from_block block id_to_block
  = Str.strip (Str.join " " (immediate_word_texts block id_to_block)).
Proof.
  intros Hw. unfold extract_text_from_block, immediate_word_texts.
  rewrite bool_decide_eq_false_2 by done.
  by rewrite collect_fragments_fold.
Qed.

End text.

Section text_claims.

Lemma word_text_of_kind_and_text (idx idx' : gmap string Block) child_id :
  kind_and_text idx child_id = kind_and_text idx' child_id →
  word_text_of idx child_id = word_text_of idx' child_id.
Proof.
  unfold kind_and_text, word_text_of.
  destruct (idx !! child_id) as [c|], (idx' !! child_id) as [c'|];
    simpl; intros Heq; try done.
  injection Heq as -> ->. done.
Qed.

Lemma immediate_word_texts_ext (idx idx' : gmap string Block) block :
  (∀ rel child_id, rel ∈ Relationships block → Type_ rel = "CHILD" →
     child_id ∈ Ids rel →
     kind_and_text idx child_id = kind_and_text idx' child_id) →
  immediate_word_texts block idx = immediate_word_texts block idx'.
Proof.
  intros Hagree. unfold immediate_word_texts.
  apply Forall_bind_ext, Forall_forall.
  intros rel [Hc Hrel]%list_elem_of_filter.
  apply Forall_bind_ext, Forall_forall.
  intros child_id Hid. apply word_text_of_kind_and_text; eauto.
Qed.

(** C6. A WORD block reconstructs to its raw text, untrimmed. Any other
    block reconstructs to the stripped, space-joined raw texts of its
    immediate WORD children with non-empty text, taken through the CHILD
    relationships only, in order; nothing below the immediate children is
    read (two indexes that agree on the kind and text of those children
    give the same string), and reconstruction is a function of the block
    and the index. *)
Theorem extract_text_from_block_contract
    (block : Block) (idx idx' : gmap string Block) :
  (BlockType block = "WORD" →
     extract_text_from_block block idx = default "" (Text block))
  ∧ (BlockType block ≠ "WORD" →
     extract_text_from_block block idx
     = Str.strip (Str.join " " (immediate_word_texts block idx)))
  ∧ ((∀ rel child_id, rel ∈ Relationships block → Type_ rel = "CHILD" →
        child_id ∈ Ids rel →
        kind_and_text idx child_id = kind_and_text idx' child_id) →
     extract_text_from_block block idx = extract_text_from_block block idx')
  ∧ (∀ out1 out2,
       out1 = extract_text_from_block block idx →
       out2 = extract_text_from_block block idx → out1 = out2).
Proof.
  split; [apply extract_text_word|].
  split; [apply extract_text_composite|].
  split; [|congruence].
  intros Hagree. destruct (decide (BlockType block = "WORD")) as [Hw|Hw].
  - by rewrite !extract_text_word.
  - rewrite !extract_text_composite by done.
    by rewrite (immediate_word_texts_ext idx idx').
Qed.

End text_claims.

(** *** Page location *)

Section pages.

Variable blocks : list Block.
Variable id_to_block : gmap string Block.

Lemma scan_page_step block rest page_number phrase :
  scan_page (block :: rest) id_to_block page_number (Str.lower phrase)
  = if decide (phrase_on_block id_to_block page_number phrase block)
    then true
    else scan_page rest id_to_block page_number (Str.lower phrase).
Proof.
  simpl. unfold is_text_bearing.
  destruct (decide (phrase_on_block _ _ _ _)) as [(Hp & Hk & Hc)|Hno].
  - rewrite bool_decide_eq_false_2 by naive_solver.
    by rewrite bool_decide_eq_true_2, Hc.
  - case_bool_decide as Hp; [done|]. case_bool_decide as Hk; [|done].
    destruct (Str.contains _ _) eqn:Hc; [|done].
    destruct Hno. split_and!; [|done|done].
    by destruct (decide (Page block = Some page_number)).
Qed.

Lemma page_contains_phrase_cons block rest page_number phrase :
  page_contains_phrase (block :: rest) id_to_block page_number phrase
  = if decide (phrase_on_block id_to_block page_number phrase block)
    then true
    else page_contains_phrase rest id_to_block page_number phrase.
Proof. apply scan_page_step. Qed.

Lemma page_contains_phrase_first bs page_number phrase :
  page_contains_phrase bs id_to_block page_number phrase = true ↔
  ∃ pre block post,
    bs = pre ++ block :: post
    ∧ phrase_on_block id_to_block page_number phrase block
    ∧ ∀ b, b ∈ pre → ¬ phrase_on_block id_to_block page_number phrase b.
Proof.
  induction bs as [|b bs IH].
  - split; [done|]. intros (pre & ? & ? & Heq & _).
    by destruct pre.
  - rewrite page_contains_phrase_cons. case_decide as Hb.
    + split; [|done]. intros _. exists [], b, bs.
      split_and!; [done|done|]. by intros ? ?%elem_of_nil.
    + rewrite IH. split.
      * intros (pre & b' & post & -> & Hb' & Hpre).
        exists (b :: pre), b', post. split_and!; [done|done|].
        intros x [->|?]%elem_of_cons; auto.
      * intros (pre & b' & post & Heq & Hb' & Hpre).
        destruct pre as [|x pre]; simplify_eq/=; [done|].
        exists pre, b', post. split_and!; [done|done|].
        intros y Hy. apply Hpre. by right.
Qed.

Lemma page_contains_phrase_true bs page_number phrase :
  page_contains_phrase bs id_to_block page_number phrase = true ↔
  ∃ block, block ∈ bs
           ∧ phrase_on_block id_to_block page_number phrase block.
Proof.
  induction bs as [|b bs IH].
  - split; [done|]. by intros (? & ?%elem_of_nil & _).
  - rewrite page_contains_phrase_cons. case_decide as Hb.
    + split; [|done]. intros _. exists b. split; [by left|done].
    + rewrite IH. split.
      * intros (b' & ? & ?). exists b'. split; [by right|done].
      * intros (b' & [->|?]%elem_of_cons & ?); [done|eauto].
Qed.

Lemma page_contains_phrase_decided pre block post page_number phrase :
  phrase_on_block id_to_block page_number phrase block →
  page_contains_phrase (pre ++ block :: post) id_to_block
    page_number phrase = true.
Proof.
  intros Hb. apply page_contains_phrase_true. exists block.
  split; [|done]. apply elem_of_app. right. by left.
Qed.

Lemma elem_of_detect_pages page :
  page ∈ detect_pages blocks ↔ ∃ b, b ∈ blocks ∧ Page b = Some page.
Proof.
  unfold detect_pages. rewrite merge_sort_Permutation.
  rewrite elem_of_elements, elem_of_list_to_set.
  apply list_elem_of_omap.
Qed.

Lemma StronglySorted_le_lt (l : list Z) :
  StronglySorted Z.le l → NoDup l → StronglySorted Z.lt l.
Proof.
  induction 1 as [|x l Hl IH Hx]; intros Hnd; [constructor|].
  apply NoDup_cons in Hnd as [Hnot Hnd].
  constructor; [auto|].
  rewrite Forall_forall in Hx |- *. intros y Hy.
  specialize (Hx y Hy). assert (x ≠ y) by (by intros ->). lia.
Qed.

Lemma detect_pages_ascending : StronglySorted Z.lt (detect_pages blocks).
Proof.
  apply StronglySorted_le_lt.
  - apply StronglySorted_merge_sort; apply _.
  - unfold detect_pages. rewrite merge_sort_Permutation.
    apply NoDup_elements.
Qed.

Lemma find_target_page_Some pages page :
  find_target_page pages blocks id_to_block = Some page ↔
  ∃ pre post,
    pages = pre ++ page :: post
    ∧ page_contains_phrase blocks id_to_block page PHRASE = true
    ∧ ∀ q, q ∈ pre →
           page_contains_phrase blocks id_to_block q PHRASE = false.
Proof.
  induction pages as [|q pages IH]; simpl.
  - split; [done|]. intros (pre & ? & ? & _). by destruct pre.
  - destruct (page_contains_phrase blocks id_to_block q PHRASE) eqn:Hq.
    + split.
      * intros [= ->]. exists [], pages.
        split_and!; [done|done|]. by intros ? ?%elem_of_nil.
      * intros (pre & post & Heq & Hp & Hpre).
        destruct pre as [|x pre]; simplify_eq/=; [done|].
        rewrite Hpre in Hq; [done|by left].
    + rewrite IH. split.
      * intros (pre & post & -> & Hp & Hpre).
        exists (q :: pre), post. split_and!; [done|done|].
        intros x [->|?]%elem_of_cons; auto.
      * intros (pre & post & Heq & Hp & Hpre).
        destruct pre as [|x pre]; simplify_eq/=; [congruence|].
        exists pre, post. split_and!; [done|done|].
        intros y Hy. apply Hpre. by right.
Qed.

Lemma find_target_page_None pages :
  find_target_page pages blocks id_to_block = None ↔
  ∀ q, q ∈ pages →
       page_contains_phrase blocks id_to_block q PHRASE = false.
Proof.
  induction pages as [|q pages IH]; simpl.
  - split; [|done]. by intros _ ? ?%elem_of_nil.
  - destruct (page_contains_phrase blocks id_to_block q PHRASE) eqn:Hq.
    + split; [done|]. intros H. rewrite H in Hq; [done|by left].
    + rewrite IH. split.
      * intros H x [->|?]%elem_of_cons; auto.
      * intros H x Hx. apply H. by right.
Qed.

Lemma find_target_page_smallest page :
  find_target_page (detect_pages blocks) blocks id_to_block = Some page ↔
  page ∈ detect_pages blocks
  ∧ page_contains_phrase blocks id_to_block page PHRASE = true
  ∧ ∀ q, q ∈ detect_pages blocks →
         page_contains_phrase blocks id_to_block q PHRASE = true →
         page ≤ q.
Proof.
  rewrite find_target_page_Some.
  pose proof detect_pages_ascending as Hsorted. split.
  - intros (pre & post & Heq & Hp & Hpre). rewrite Heq in Hsorted |- *.
    split_and!; [set_solver|done|].
    intros q Hq Hqp.
    apply StronglySorted_app_1_r, StronglySorted_cons in Hsorted.
    destruct Hsorted as [Hlt _]. rewrite Forall_forall in Hlt.
    apply elem_of_app in Hq as [Hq|[->|Hq]%elem_of_cons].
    + rewrite (Hpre q Hq) in Hqp. done.
    + lia.
    + specialize (Hlt q Hq). lia.
  - intros (Hin & Hp & Hmin).
    apply list_elem_of_split in Hin as (pre & post & Heq).
    exists pre, post. split_and!; [done|done|].
    intros q Hq.
    destruct (page_contains_phrase blocks id_to_block q PHRASE) eqn:Hqp;
      [|done].
    rewrite Heq in Hsorted, Hmin.
    assert (page ≤ q) by (apply Hmin; [set_solver|done]).
    assert (q < page); [|lia].
    eapply StronglySorted_app_1_elem_of; [exact Hsorted|done|by left].
Qed.

End pages.

Section page_claims.

(** C8. The page locator answers true exactly when some LINE, CELL or
    TABLE block of the page has reconstructed text containing the phrase,
    compared in lower case, and the answer is settled at the first such
    block whatever follows it. The pages that the orchestrator probes are
    the page numbers of the blocks in strictly ascending order; the probe
    stops at the first page that matches, so the target page is the
    smallest matching page number, and there is none exactly when no page
    matches. *)
Theorem page_location (blocks : list Block) (idx : gmap string Block) :
  (∀ p phrase,
      page_contains_phrase blocks idx p phrase = true ↔
      ∃ b, b ∈ blocks ∧ phrase_on_block idx p phrase b)
  ∧ (∀ p phrase,
      page_contains_phrase blocks idx p phrase = true ↔
      ∃ pre b post,
        blocks = pre ++ b :: post ∧ phrase_on_block idx p phrase b
        ∧ ∀ b', b' ∈ pre → ¬ phrase_on_block idx p phrase b')
  ∧ (∀ p phrase pre b post,
      phrase_on_block idx p phrase b →
      page_contains_phrase (pre ++ b :: post) idx p phrase = true)
  ∧ StronglySorted Z.lt (detect_pages blocks)
  ∧ (∀ p, p ∈ detect_pages blocks ↔ ∃ b, b ∈ blocks ∧ Page b = Some p)
  ∧ (∀ p,
      find_target_page (detect_pages blocks) blocks idx = Some p ↔
      ∃ pre post,
        detect_pages blocks = pre ++ p :: post
        ∧ page_contains_phrase blocks idx p PHRASE = true
        ∧ ∀ q, q ∈ pre → page_contains_phrase blocks idx q PHRASE = false)
  ∧ (∀ p,
      find_target_page (detect_pages blocks) blocks idx = Some p ↔
      p ∈ detect_pages blocks
      ∧ page_contains_phrase blocks idx p PHRASE = true
      ∧ ∀ q, q ∈ detect_pages blocks →
             page_contains_phrase blocks idx q PHRASE = true → p ≤ q)
  ∧ (find_target_page (detect_pages blocks) blocks idx = None ↔
     ∀ q, q ∈ detect_pages blocks →
          page_contains_phrase blocks idx q PHRASE = false).
Proof.
  split_and!.
  - intros. apply page_contains_phrase_true.
  - intros. apply page_contains_phrase_first.
  - intros. by apply page_contains_phrase_decided.
  - apply detect_pages_ascending.
  - apply elem_of_detect_pages.
  - intros. apply find_target_page_Some.
  - apply find_target_page_smallest.
  - apply find_target_page_None.
Qed.

Lemma no_word_children_texts block (idx : gmap string Block) :
  no_word_children block idx → immediate_word_texts block idx = [].
Proof.
  unfold no_word_children, immediate_word_texts.
  induction 1 as [|rel rels Hrel _ IH]; [done|].
  destruct (decide (Type_ rel = "CHILD")) as [Hc|Hc].
  - rewrite filter_cons_True by done. rewrite bind_cons, IH, app_nil_r.
    specialize (Hrel Hc). clear -Hrel.
    induction Hrel as [|child_id ids Hid _ IHids]; [done|].
    rewrite bind_cons, IHids, app_nil_r. unfold word_text_of.
    destruct (idx !! child_id) as [child|]; [|done]. simpl in Hid.
    rewrite bool_decide_eq_false_2; [done|]. intros [Hw _]. congruence.
  - by rewrite filter_cons_False.
Qed.

Lemma table_text_empty t (idx : gmap string Block) :
  BlockType t = "TABLE" → no_word_children t idx →
  extract_text_from_block t idx = "".
Proof.
  intros Ht Hno. rewrite extract_text_composite by (by rewrite Ht).
  by rewrite no_word_children_texts.
Qed.

Lemma phrase_not_in_empty phrase :
  phrase ≠ "" → Str.contains (Str.lower phrase) (Str.lower "") = false.
Proof.
  intros Hne. apply not_true_is_false.
  intros Hc. apply contains_in_empty in Hc.
  by apply (proj1 (lower_empty phrase)) in Hc.
Qed.

(** C10. A TABLE block none of whose immediate CHILD targets is a WORD
    reconstructs to the empty string, so it never passes the locator's
    containment test for a non-empty phrase; when every TABLE of the
    collection is of that kind, the page locator answers as it does on the
    collection without its TABLE blocks. *)
Theorem table_never_matches (blocks : list Block)
    (idx : gmap string Block) (p : Z) (phrase : string) :
  (∀ t, BlockType t = "TABLE" → no_word_children t idx →
        extract_text_from_block t idx = ""
        ∧ (phrase ≠ "" → ¬ phrase_on_block idx p phrase t))
  ∧ (phrase ≠ "" →
     Forall (λ t, BlockType t = "TABLE" → no_word_children t idx) blocks →
     page_contains_phrase blocks idx p phrase
     = page_contains_phrase
         (filter (λ b, BlockType b ≠ "TABLE") blocks) idx p phrase).
Proof.
  assert (Hone : ∀ t, BlockType t = "TABLE" → no_word_children t idx →
                      phrase ≠ "" → ¬ phrase_on_block idx p phrase t).
  { intros t Ht Hno Hne (_ & _ & Hc).
    rewrite table_text_empty, phrase_not_in_empty in Hc by done. done. }
  split.
  - intros t Ht Hno. split; [by apply table_text_empty|].
    intros Hne. by apply Hone.
  - intros Hne Hall. induction Hall as [|b bs Hb _ IH]; [done|].
    rewrite page_contains_phrase_cons.
    destruct (decide (BlockType b = "TABLE")) as [Ht|Ht].
    + rewrite filter_cons_False by naive_solver.
      rewrite decide_False by (apply Hone; auto). done.
    + rewrite filter_cons_True by done.
      rewrite page_contains_phrase_cons, IH. done.
Qed.

End page_claims.

(** *** The block index *)

Section index.

Lemma collect_child_ids_fold rels acc :
  foldl (λ child_ids rel,
           if bool_decide (Type_ rel = "CHILD" ∨ Type_ rel = "MERGED_CELL")
           then child_ids ++ Ids rel else child_ids) acc rels
  = acc ++ (filter (λ rel, Type_ rel = "CHILD" ∨ Type_ rel = "MERGED_CELL")
              rels ≫= Ids).
Proof.
  revert acc. induction rels as [|rel rels IH]; intros acc; simpl.
  - by rewrite app_nil_r.
  - rewrite IH. case_bool_decide as Hk.
    + rewrite filter_cons_True by done. by rewrite bind_cons, app_assoc.
    + by rewrite filter_cons_False.
Qed.

Lemma collect_child_ids_spec block :
  collect_child_ids block = structural_children block.
Proof. apply collect_child_ids_fold. Qed.

Lemma build_block_index_snoc bs b :
  build_block_index (bs ++ [b]) = index_block (build_block_index bs) b.
Proof. unfold build_block_index. by rewrite foldl_app. Qed.

Lemma index_block_fst acc b : (index_block acc b).1 = <[Id b := b]> acc.1.
Proof.
  destruct acc. unfold index_block. by destruct (collect_child_ids b).
Qed.

Lemma index_block_snd acc b :
  (index_block acc b).2
  = match structural_children b with
    | [] => acc.2
    | _ :: _ => <[Id b := structural_children b]> acc.2
    end.
Proof.
  destruct acc. unfold index_block. rewrite collect_child_ids_spec.
  by destruct (structural_children b).
Qed.

Lemma index_dom bs :
  dom (build_block_index bs).1 = list_to_set (Id <$> bs).
Proof.
  induction bs as [|b bs IH] using rev_ind; [apply dom_empty_L|].
  rewrite build_block_index_snoc, index_block_fst, dom_insert_L, IH.
  rewrite fmap_app, list_to_set_app_L. simpl.
  by rewrite (right_id_L ∅ (∪)), (comm_L (∪)).
Qed.

Lemma index_lookup_inv bs k b :
  (build_block_index bs).1 !! k = Some b → b ∈ bs ∧ Id b = k.
Proof.
  induction bs as [|b0 bs IH] using rev_ind; [done|].
  rewrite build_block_index_snoc, index_block_fst.
  destruct (decide (Id b0 = k)) as [<-|Hne].
  - rewrite lookup_insert_eq. intros [= ->].
    split; [|done]. apply elem_of_app. right. by left.
  - rewrite lookup_insert_ne by done. intros [? ?]%IH.
    split; [|done]. apply elem_of_app. by left.
Qed.

Lemma index_lookup bs b :
  NoDup (Id <$> bs) → b ∈ bs → (build_block_index bs).1 !! Id b = Some b.
Proof.
  induction bs as [|b0 bs IH] using rev_ind; [by intros _ ?%elem_of_nil|].
  rewrite fmap_app, NoDup_app. intros (Hnd & Hfresh & _) Hb.
  rewrite build_block_index_snoc, index_block_fst.
  apply elem_of_app in Hb as [Hb|Hb%list_elem_of_singleton].
  - rewrite lookup_insert_ne; [by apply IH|].
    intros Heq. apply (Hfresh (Id b)); [by apply list_elem_of_fmap_2|].
    rewrite <-Heq. simpl. by left.
  - subst. apply lookup_insert_eq.
Qed.

Lemma children_lookup bs b :
  NoDup (Id <$> bs) → b ∈ bs →
  (build_block_index bs).2 !! Id b
  = match structural_children b with
    | [] => None
    | _ :: _ => Some (structural_children b)
    end.
Proof.
  assert (Hkeys : ∀ bs k, is_Some ((build_block_index bs).2 !! k) →
                          k ∈ Id <$> bs).
  { clear. intros bs k.
    induction bs as [|b0 bs IH] using rev_ind; [by intros [? ?]|].
    rewrite build_block_index_snoc, index_block_snd, fmap_app.
    destruct (structural_children b0).
    - intros ?%IH. apply elem_of_app. by left.
    - destruct (decide (Id b0 = k)) as [<-|Hne].
      { intros _. apply elem_of_app. right. simpl. by left. }
      rewrite lookup_insert_ne by done. intros ?%IH.
      apply elem_of_app. by left. }
  induction bs as [|b0 bs IH] using rev_ind; [by intros _ ?%elem_of_nil|].
  rewrite fmap_app, NoDup_app. intros (Hnd & Hfresh & _) Hb.
  rewrite build_block_index_snoc, index_block_snd.
  apply elem_of_app in Hb as [Hb|Hb%list_elem_of_singleton].
  - assert (Id b0 ≠ Id b) as Hne.
    { intros Heq. apply (Hfresh (Id b)); [by apply list_elem_of_fmap_2|].
      rewrite <-Heq. simpl. by left. }
    destruct (structural_children b0); [by apply IH|].
    rewrite lookup_insert_ne by done. by apply IH.
  - subst b0. destruct (structural_children b) eqn:Hs.
    + apply eq_None_not_Some. intros Hsome%Hkeys.
      by apply (Hfresh (Id b)); [|simpl; left].
    + apply lookup_insert_eq.
Qed.

(** C9. The id-to-block map has exactly the identifiers of the blocks as
    its keys, each key once, and maps a key only to a block carrying it.
    With the identifiers of the collection pairwise distinct, as the data
    model has them, every block is the value of its own identifier, the
    map has as many keys as there are blocks, and the child list of a
    block is the concatenation, in relationship order, of the targets of
    its CHILD and MERGED_CELL relationships, so every such target is in
    it. *)
Theorem build_block_index_complete (blocks : list Block) :
  let id_to_block := (build_block_index blocks).1 in
  let block_children := (build_block_index blocks).2 in
  dom id_to_block = list_to_set (Id <$> blocks)
  ∧ (∀ b, b ∈ blocks → is_Some (id_to_block !! Id b))
  ∧ NoDup (map_to_list id_to_block).*1
  ∧ (∀ k b, id_to_block !! k = Some b → b ∈ blocks ∧ Id b = k)
  ∧ (NoDup (Id <$> blocks) →
     size id_to_block = length blocks
     ∧ (∀ b, b ∈ blocks → id_to_block !! Id b = Some b)
     ∧ (∀ b rel child_id,
          b ∈ blocks → rel ∈ Relationships b →
          Type_ rel = "CHILD" ∨ Type_ rel = "MERGED_CELL" →
          child_id ∈ Ids rel →
          block_children !! Id b = Some (structural_children b)
          ∧ child_id ∈ structural_children b)).
Proof.
  intros id_to_block block_children. subst id_to_block block_children.
  pose proof (index_dom blocks) as Hdom.
  split_and!.
  - done.
  - intros b Hb. apply elem_of_dom. rewrite Hdom.
    apply elem_of_list_to_set. by apply list_elem_of_fmap_2.
  - apply NoDup_fst_map_to_list.
  - apply index_lookup_inv.
  - intros Hnd. split_and!.
    + rewrite <-size_dom, Hdom, size_list_to_set by done.
      by rewrite length_fmap.
    + intros b Hb. by apply index_lookup.
    + intros b rel child_id Hb Hrel Hk Hid.
      assert (child_id ∈ structural_children b) as Hin.
      { unfold structural_children. apply list_elem_of_bind.
        exists rel. split; [done|]. by apply list_elem_of_filter. }
      split; [|done]. rewrite children_lookup by done.
      destruct (structural_children b); [by apply elem_of_nil in Hin|done].
Qed.

End index.

(** *** Normalisation *)

Section normalisation.

Lemma isspace_lower_char c : Str.isspace (Str.lower_char c) = Str.isspace c.
Proof. by destruct c as [[] [] [] [] [] [] [] []]. Qed.

Lemma isspace_same_letter c c' :
  Str.lower_char c = Str.lower_char c' → Str.isspace c = Str.isspace c'.
Proof.
  intros Heq. by rewrite <-(isspace_lower_char c), Heq, isspace_lower_char.
Qed.

Lemma lstrip_all_space b : all_space b = true → Str.lstrip b = "".
Proof.
  induction b as [|c b IH]; [done|]. simpl.
  intros [-> ?]%andb_prop. auto.
Qed.

Lemma rstrip_all_space b : all_space b = true → Str.rstrip b = "".
Proof.
  induction b as [|c b IH]; [done|]. simpl.
  intros [-> Hb]%andb_prop. by rewrite IH.
Qed.

Lemma lstrip_app_space a s :
  all_space a = true → Str.lstrip (a +:+ s) = Str.lstrip s.
Proof.
  induction a as [|c a IH]; [done|]. simpl.
  intros [-> ?]%andb_prop. auto.
Qed.

Lemma rstrip_app_space s b :
  all_space b = true → Str.rstrip (s +:+ b) = Str.rstrip s.
Proof.
  intros Hb. induction s as [|c s IH]; simpl.
  - by apply rstrip_all_space.
  - by rewrite IH.
Qed.

Lemma strip_app_space m b :
  all_space b = true → Str.strip (m +:+ b) = Str.strip m.
Proof.
  intros Hb. unfold Str.strip. induction m as [|c m IH]; simpl.
  - by rewrite lstrip_all_space.
  - destruct (Str.isspace c); [done|].
    by rewrite <-(rstrip_app_space (String c m) b).
Qed.

Lemma strip_padding a m b :
  all_space a = true → all_space b = true →
  Str.strip (a +:+ m +:+ b) = Str.strip m.
Proof.
  intros Ha Hb. unfold Str.strip. rewrite lstrip_app_space by done.
  by apply strip_app_space.
Qed.

Lemma same_letters_lstrip m m' :
  same_letters m m' → same_letters (Str.lstrip m) (Str.lstrip m').
Proof.
  revert m'. induction m as [|c m IH]; intros [|c' m']; simpl; try done.
  intros [Hc Hm]. rewrite (isspace_same_letter c c') by done.
  destruct (Str.isspace c'); [by apply IH|done].
Qed.

Lemma same_letters_rstrip m m' :
  same_letters m m' → same_letters (Str.rstrip m) (Str.rstrip m').
Proof.
  revert m'. induction m as [|c m IH]; intros [|c' m']; simpl; try done.
  intros [Hc Hm]. specialize (IH m' Hm).
  rewrite (isspace_same_letter c c') by done.
  destruct (Str.rstrip m), (Str.rstrip m'); simpl in *; try done.
  by destruct (Str.isspace c').
Qed.

Lemma same_letters_lower m m' :
  same_letters m m' → Str.lower m = Str.lower m'.
Proof.
  revert m'. induction m as [|c m IH]; intros [|c' m']; simpl; try done.
  intros [-> Hm]. by rewrite (IH m').
Qed.

Lemma normalize_variant s s' : text_variant s s' → normalize s = normalize s'.
Proof.
  intros (a & m & b & a' & m' & b' & -> & -> & Ha & Hb & Ha' & Hb' & Hm).
  unfold normalize. rewrite !strip_padding by done.
  apply same_letters_lower. unfold Str.strip.
  by apply same_letters_rstrip, same_letters_lstrip.
Qed.

Lemma prefix_refl s : String.prefix s s = true.
Proof.
  induction s as [|c s IH]; [done|]. simpl.
  by destruct (ascii_dec c c).
Qed.

Lemma contains_refl s : Str.contains s s = true.
Proof. destruct s; [done|]. cbn [Str.contains]. by rewrite prefix_refl. Qed.

Lemma cell_matches_contains target value :
  cell_matches target value = Str.contains target (normalize value).
Proof.
  unfold cell_matches. case_bool_decide as Heq; [|done].
  rewrite Heq. simpl. by rewrite contains_refl.
Qed.

Lemma cell_matches_variant q q' v v' :
  text_variant q q' → text_variant v v' →
  cell_matches (normalize q) v = cell_matches (normalize q') v'.
Proof.
  intros Hq%normalize_variant Hv%normalize_variant.
  unfold cell_matches. by rewrite Hq, Hv.
Qed.

End normalisation.

(** *** The cell resolver *)

Section resolver.

Lemma first_index_Some {A} (f : A → bool) l k r :
  first_index f l k = Some r ↔
  ∃ i x, r = (k + i)%nat ∧ l !! i = Some x ∧ f x = true
         ∧ ∀ j y, (j < i)%nat → l !! j = Some y → f y = false.
Proof.
  revert k. induction l as [|x l IH]; intros k; simpl.
  - split; [done|]. by intros (? & ? & _ & ? & _).
  - destruct (f x) eqn:Hx.
    + split.
      * intros [= <-]. exists 0%nat, x. split_and!; [lia|done|done|lia].
      * intros (i & y & -> & Hy & Hm & Hfirst). destruct i; [f_equal; lia|].
        rewrite (Hfirst 0%nat x) in Hx; [done|lia|done].
    + rewrite IH. split.
      * intros (i & y & -> & Hy & Hm & Hfirst).
        exists (S i), y. split_and!; [lia|done|done|].
        intros [|j] z Hj Hz; simplify_eq/=; [done|].
        apply (Hfirst j); [lia|done].
      * intros (i & y & -> & Hy & Hm & Hfirst).
        destruct i as [|i]; simplify_eq/=; [congruence|].
        exists i, y. split_and!; [lia|done|done|].
        intros j z Hj Hz. apply (Hfirst (S j)); [lia|done].
Qed.

Lemma first_index_None {A} (f : A → bool) l k :
  first_index f l k = None ↔ Forall (λ x, f x = false) l.
Proof.
  revert k. induction l as [|x l IH]; intros k; simpl.
  - split; [constructor|done].
  - rewrite Forall_cons. destruct (f x).
    + split; [done|]. by intros [? _].
    + rewrite IH. tauto.
Qed.

Lemma first_index_ext {A B} (f : A → bool) (g : B → bool) l l' k :
  Forall2 (λ x y, f x = g y) l l' →
  first_index f l k = first_index g l' k.
Proof.
  intros H. revert k. induction H as [|x y l l' Hxy _ IH]; intros k; simpl.
  - done.
  - rewrite Hxy. destruct (g y); [done|apply IH].
Qed.

Lemma scan_header_row_first row k target :
  scan_header_row row k target = first_index (cell_matches target) row k.
Proof. revert k. induction row as [|x row IH]; intros k; simpl; [done|].
       by rewrite IH. Qed.

Lemma scan_label_rows_first rows k target :
  scan_label_rows rows k target
  = first_index (first_column_matches target) rows k.
Proof.
  revert k. induction rows as [|row rows IH]; intros k; simpl; [done|].
  rewrite IH. by destruct row.
Qed.

Lemma find_row_index_by_label_Some table label r :
  find_row_index_by_label table label = Some r ↔
  ∃ row, table !! r = Some row
         ∧ first_column_matches (normalize label) row = true
         ∧ ∀ j row', (j < r)%nat → table !! j = Some row' →
                     first_column_matches (normalize label) row' = false.
Proof.
  unfold find_row_index_by_label.
  rewrite scan_label_rows_first, first_index_Some. split.
  - intros (i & row & -> & ?). by exists row.
  - intros (row & ?). by exists r, row.
Qed.

Lemma scan_header_rows_Some rows target c :
  scan_header_rows rows target = Some c →
  ∃ i row v, rows !! i = Some row ∧ row !! c = Some v
             ∧ cell_matches target v = true.
Proof.
  induction rows as [|row rows IH]; simpl; [done|].
  destruct (scan_header_row row 0 target) as [c'|] eqn:Hrow.
  - intros [= ->]. rewrite scan_header_row_first in Hrow.
    apply first_index_Some in Hrow as (j & v & -> & Hv & Hm & _).
    by exists 0%nat, row, v.
  - intros (i & row' & v & ? & ? & ?)%IH. by exists (S i), row', v.
Qed.

Lemma scan_header_rows_found rows target i row j v :
  rows !! i = Some row → row !! j = Some v →
  cell_matches target v = true →
  is_Some (scan_header_rows rows target).
Proof.
  revert i. induction rows as [|row' rows IH]; intros i; simpl; [done|].
  intros Hi Hj Hm.
  destruct (scan_header_row row' 0 target) as [c'|] eqn:Hrow; [done|].
  rewrite scan_header_row_first in Hrow.
  apply first_index_None in Hrow. rewrite Forall_forall in Hrow.
  destruct i as [|i]; simplify_eq/=.
  - rewrite Hrow in Hm; [done|]. by eapply list_elem_of_lookup_2.
  - by eapply IH.
Qed.

Lemma scan_header_rows_variant rows rows' q q' :
  text_variant q q' → Forall2 (Forall2 text_variant) rows rows' →
  scan_header_rows rows (normalize q) = scan_header_rows rows' (normalize q').
Proof.
  intros Hq. induction 1 as [|row row' rows rows' Hrow _ IH]; simpl; [done|].
  rewrite !scan_header_row_first.
  rewrite (first_index_ext (cell_matches (normalize q))
             (cell_matches (normalize q')) row row').
  - by rewrite IH.
  - eapply Forall2_impl; [exact Hrow|].
    intros v v' Hv. by apply cell_matches_variant.
Qed.

Lemma find_column_index_by_header_variant t t' q q' :
  text_variant q q' → Forall2 (Forall2 text_variant) t t' →
  find_column_index_by_header t q = find_column_index_by_header t' q'.
Proof.
  intros Hq Ht. unfold find_column_index_by_header.
  destruct Ht as [|row row' t t' Hrow Ht]; [done|].
  apply scan_header_rows_variant; [done|].
  apply Forall2_take. by constructor.
Qed.

Lemma find_row_index_by_label_variant t t' q q' :
  text_variant q q' → Forall2 (Forall2 text_variant) t t' →
  find_row_index_by_label t q = find_row_index_by_label t' q'.
Proof.
  intros Hq Ht. unfold find_row_index_by_label.
  rewrite !scan_label_rows_first. apply first_index_ext.
  eapply Forall2_impl; [exact Ht|].
  intros row row' [|v v' ? ? Hv _]; simpl; [done|].
  by apply cell_matches_variant.
Qed.

Lemma same_letters_refl s : same_letters s s.
Proof. induction s; simpl; auto. Qed.

Lemma text_variant_refl s : text_variant s s.
Proof.
  exists "", s, "", "", s, "".
  assert (s +:+ "" = s) as Happ.
  { induction s as [|c s IH]; [done|].
    change (String c (s +:+ "") = String c s). by rewrite IH. }
  change ("" +:+ s +:+ "") with (s +:+ "").
  rewrite Happ. split_and!; try done. apply same_letters_refl.
Qed.

End resolver.

Section resolver_claims.

Lemma find_column_index_by_header_Some table header_query c :
  find_column_index_by_header table header_query = Some c →
  ∃ i row v, (i < 2)%nat ∧ table !! i = Some row ∧ row !! c = Some v
             ∧ cell_matches (normalize header_query) v = true.
Proof.
  unfold find_column_index_by_header. destruct table as [|row0 rest]; [done|].
  intros (i & row & v & Hi & Hv & Hm)%scan_header_rows_Some.
  apply lookup_take_Some in Hi as [Hi ?]. by exists i, row, v.
Qed.

Lemma find_column_index_by_header_found table header_query i row j v :
  (i < 2)%nat → table !! i = Some row → row !! j = Some v →
  cell_matches (normalize header_query) v = true →
  is_Some (find_column_index_by_header table header_query).
Proof.
  intros Hi Hrow Hv Hm. unfold find_column_index_by_header.
  destruct table as [|row0 rest]; [done|].
  apply (scan_header_rows_found _ _ i row j v); [|done|done].
  by apply lookup_take_Some.
Qed.

(** C5. Column and row matching do not change when the query or the cell
    texts change in the case of their letters or in leading and trailing
    whitespace; the test on a cell is containment of the normalised query
    in the normalised cell text, so a header cell of the first two rows
    (a first-column cell of any row) that contains the query makes the
    search succeed; in particular the header "2024" is found by the
    queries "2024" and "2024 ", and the row labelled "Revenue, net" by the
    label "revenue". *)
Theorem resolver_normalization (t t' : Matrix) (q q' : string) :
  (text_variant q q' → Forall2 (Forall2 text_variant) t t' →
     find_column_index_by_header t q = find_column_index_by_header t' q'
     ∧ find_row_index_by_label t q = find_row_index_by_label t' q')
  ∧ (∀ value,
       cell_matches (normalize q) value
       = Str.contains (normalize q) (normalize value))
  ∧ (∀ i row j v,
       (i < 2)%nat → t !! i = Some row → row !! j = Some v →
       Str.contains (normalize q) (normalize v) = true →
       is_Some (find_column_index_by_header t q))
  ∧ (∀ r first rest,
       t !! r = Some (first :: rest) →
       Str.contains (normalize q) (normalize first) = true →
       ∃ r', find_row_index_by_label t q = Some r' ∧ (r' ≤ r)%nat)
  ∧ find_column_index_by_header [[""; "2023"; "2024"]] "2024" = Some 2%nat
  ∧ find_column_index_by_header [[""; "2023"; "2024"]] "2024 " = Some 2%nat
  ∧ find_row_index_by_label [[""; "2023"]; ["Revenue, net"; "100"]]
      "revenue" = Some 1%nat.
Proof.
  split_and!.
  - intros Hq Ht. split.
    + by apply find_column_index_by_header_variant.
    + by apply find_row_index_by_label_variant.
  - intros value. apply cell_matches_contains.
  - intros i row j v Hi Hrow Hv Hc.
    apply (find_column_index_by_header_found _ _ i row j v); try done.
    by rewrite cell_matches_contains.
  - intros r first rest Hr Hc.
    destruct (find_row_index_by_label t q) as [r'|] eqn:Hfind.
    + exists r'. split; [done|].
      apply find_row_index_by_label_Some in Hfind as (row & _ & _ & Hmin).
      destruct (decide (r' ≤ r)%nat) as [|Hlt]; [done|].
      specialize (Hmin r (first :: rest)). simpl in Hmin.
      rewrite cell_matches_contains, Hc in Hmin.
      discriminate Hmin; [lia|done].
    + unfold find_row_index_by_label in Hfind.
      rewrite scan_label_rows_first in Hfind.
      apply first_index_None in Hfind. rewrite Forall_forall in Hfind.
      specialize (Hfind (first :: rest)). simpl in Hfind.
      rewrite cell_matches_contains, Hc in Hfind.
      discriminate Hfind. by eapply list_elem_of_lookup_2.
  - by vm_compute.
  - by vm_compute.
  - by vm_compute.
Qed.

Lemma table_attempt_no_column row0 rest page target_year :
  year_column (row0 :: rest) row0 target_year = None →
  table_attempt (row0 :: rest) page target_year = Ok None.
Proof.
  intros Hcol. unfold table_attempt. destruct row0; [done|].
  rewrite Hcol. by destruct (find_row_index_by_label _ _).
Qed.

(** C4. On a matrix whose first row has at least two columns, when no
    target year is supplied or the header search finds no match, the
    column is index 1; when the first row has fewer than two columns, no
    column is resolved and the lookup on that table is absent. *)
Theorem fallback_column_policy (matrix : Matrix) (row0 : list string)
    (rest : Matrix) (target_year : option string) (page : Z) :
  matrix = row0 :: rest →
  no_year_match matrix target_year →
  ((2 ≤ length row0)%nat →
     year_column matrix row0 target_year = Some 1%nat)
  ∧ ((length row0 < 2)%nat →
     year_column matrix row0 target_year = None
     ∧ table_attempt matrix page target_year = Ok None).
Proof.
  intros -> Hno.
  assert (year_column (row0 :: rest) row0 target_year
          = if 2 <=? Z.of_nat (length row0) then Some 1%nat else None)
    as Hcol.
  { unfold year_column. destruct target_year as [y|]; [|done].
    destruct Hno as [->|Hnone]; [done|].
    rewrite Hnone. by destruct (Str.truthy y). }
  split; intros Hlen.
  - rewrite Hcol. by rewrite (proj2 (Z.leb_le _ _)) by lia.
  - assert (year_column (row0 :: rest) row0 target_year = None) as Hnone.
    { rewrite Hcol. by rewrite (proj2 (Z.leb_gt _ _)) by lia. }
    split; [done|]. by apply table_attempt_no_column.
Qed.

End resolver_claims.

(** *** The table matrix *)

Section matrix.

Variable id_to_block : gmap string Block.

Lemma collect_cell_spec cells child_id :
  collect_cell id_to_block cells child_id
  = cells ++ cell_of id_to_block child_id.
Proof.
  unfold collect_cell, cell_of.
  destruct (id_to_block !! child_id) as [child|]; [|by rewrite app_nil_r].
  case_bool_decide; [done|by rewrite app_nil_r].
Qed.

Lemma collect_cell_fold ids cells :
  foldl (collect_cell id_to_block) cells ids
  = cells ++ (ids ≫= cell_of id_to_block).
Proof.
  revert cells. induction ids as [|child_id ids IH]; intros cells; simpl.
  - by rewrite app_nil_r.
  - rewrite IH, collect_cell_spec. by rewrite <-app_assoc.
Qed.

Lemma collect_cells_fold rels cells :
  foldl (collect_cells id_to_block) cells rels
  = cells ++ (filter (λ rel, Type_ rel = "CHILD") rels
              ≫= λ rel, Ids rel ≫= cell_of id_to_block).
Proof.
  revert cells. induction rels as [|rel rels IH]; intros cells; simpl.
  - by rewrite app_nil_r.
  - rewrite IH. unfold collect_cells.
    destruct (decide (Type_ rel = "CHILD")) as [Hc|Hc].
    + rewrite bool_decide_eq_false_2 by naive_solver.
      rewrite filter_cons_True by done. simpl.
      rewrite collect_cell_fold. by rewrite <-app_assoc.
    + rewrite bool_decide_eq_true_2 by done.
      by rewrite filter_cons_False.
Qed.

Lemma table_cells_spec table_block :
  table_cells table_block id_to_block
  = cell_children table_block id_to_block.
Proof. apply collect_cells_fold. Qed.

Lemma cell_children_kind table_block cell :
  cell ∈ cell_children table_block id_to_block → BlockType cell = "CELL".
Proof.
  unfold cell_children.
  intros (rel & Hcell & _)%list_elem_of_bind.
  apply list_elem_of_bind in Hcell as (child_id & Hcell & _).
  unfold cell_of in Hcell.
  destruct (id_to_block !! child_id) as [child|]; [|by apply elem_of_nil in Hcell].
  case_bool_decide; [|by apply elem_of_nil in Hcell].
  by apply list_elem_of_singleton in Hcell as ->.
Qed.

Lemma grid_extent_fold cells a b :
  ∃ mr mc,
    foldl (λ '(max_row, max_col) cell,
             (Z.max max_row (default 0 (RowIndex cell)),
              Z.max max_col (default 0 (ColumnIndex cell))))
          (a, b) cells = (mr, mc)
    ∧ a ≤ mr ∧ b ≤ mc
    ∧ (∀ cell, cell ∈ cells →
         default 0 (RowIndex cell) ≤ mr ∧ default 0 (ColumnIndex cell) ≤ mc)
    ∧ (mr = a ∨ ∃ cell, cell ∈ cells ∧ mr = default 0 (RowIndex cell))
    ∧ (mc = b ∨ ∃ cell, cell ∈ cells ∧ mc = default 0 (ColumnIndex cell)).
Proof.
  revert a b. induction cells as [|cell cells IH]; intros a b; simpl.
  - exists a, b. split_and!; try done; try lia; try by left.
    by intros ? ?%elem_of_nil.
  - destruct (IH (Z.max a (default 0 (RowIndex cell)))
                 (Z.max b (default 0 (ColumnIndex cell))))
      as (mr & mc & -> & Ha & Hb & Hall & Hr & Hc).
    exists mr, mc. split_and!; [done|lia|lia|..].
    + intros x [->|Hx]%elem_of_cons; [lia|by apply Hall].
    + destruct Hr as [->|(x & Hx & ->)].
      * destruct (Z.max_spec a (default 0 (RowIndex cell))) as [[_ ->]|[_ ->]];
          [right; exists cell; split; [by left|done]|by left].
      * right. exists x. split; [by right|done].
    + destruct Hc as [->|(x & Hx & ->)].
      * destruct (Z.max_spec b (default 0 (ColumnIndex cell)))
          as [[_ ->]|[_ ->]];
          [right; exists cell; split; [by left|done]|by left].
      * right. exists x. split; [by right|done].
Qed.

Lemma grid_extent_maximum cells R C :
  Forall one_based cells →
  is_maximum R (omap RowIndex cells) →
  is_maximum C (omap ColumnIndex cells) →
  grid_extent cells = (R, C).
Proof.
  intros Hone [HRle HR] [HCle HC]. unfold grid_extent.
  rewrite Forall_forall in HRle, HCle.
  destruct (grid_extent_fold cells 0 0)
    as (mr & mc & -> & Hr0 & Hc0 & Hall & Hr & Hc).
  rewrite Forall_forall in Hone.
  assert (∀ cell, cell ∈ cells →
            ∃ r c, RowIndex cell = Some r ∧ ColumnIndex cell = Some c
                   ∧ 1 ≤ r ≤ R ∧ 1 ≤ c ≤ C ∧ r ≤ mr ∧ c ≤ mc) as Hcell.
  { intros cell Hin. specialize (Hone cell Hin). specialize (Hall cell Hin).
    unfold one_based in Hone.
    destruct (RowIndex cell) as [r|] eqn:Hrow; [|done].
    destruct (ColumnIndex cell) as [c|] eqn:Hcol; [|done].
    exists r, c. simpl in Hall.
    assert (r ≤ R) by (apply HRle, list_elem_of_omap; eauto).
    assert (c ≤ C) by (apply HCle, list_elem_of_omap; eauto).
    split_and!; try done; lia. }
  f_equal.
  - destruct HR as [(cell & Hin & Hrow)%list_elem_of_omap|[Hnil ->]].
    + destruct (Hcell cell Hin) as (r & c & ? & ? & ? & ? & ? & ?).
      destruct Hr as [->|(x & Hx & ->)]; [simplify_eq; lia|].
      destruct (Hcell x Hx) as (r' & c' & Hr' & ? & ? & ? & ? & ?).
      rewrite Hr' in *. simpl in *. simplify_eq. lia.
    + destruct Hr as [->|(x & Hx & ->)]; [done|].
      destruct (Hcell x Hx) as (r' & c' & Hr' & ? & ? & ? & ? & ?).
      assert (r' ∈ omap RowIndex cells) as Hin
          by (apply list_elem_of_omap; eauto).
      rewrite Hnil in Hin. by apply elem_of_nil in Hin.
  - destruct HC as [(cell & Hin & Hcol)%list_elem_of_omap|[Hnil ->]].
    + destruct (Hcell cell Hin) as (r & c & ? & ? & ? & ? & ? & ?).
      destruct Hc as [->|(x & Hx & ->)]; [simplify_eq; lia|].
      destruct (Hcell x Hx) as (r' & c' & ? & Hc' & ? & ? & ? & ?).
      rewrite Hc' in *. simpl in *. simplify_eq. lia.
    + destruct Hc as [->|(x & Hx & ->)]; [done|].
      destruct (Hcell x Hx) as (r' & c' & ? & Hc' & ? & ? & ? & ?).
      assert (c' ∈ omap ColumnIndex cells) as Hin
          by (apply list_elem_of_omap; eauto).
      rewrite Hnil in Hin. by apply elem_of_nil in Hin.
Qed.

End matrix.

Section placing.

Variable id_to_block : gmap string Block.

Lemma position_in_range len i :
  0 ≤ i < Z.of_nat len → PyList.position len i = Ok (Z.to_nat i).
Proof.
  intros Hi. unfold PyList.position.
  rewrite (proj2 (Z.leb_le _ _)) by lia.
  by rewrite (proj2 (Z.ltb_lt _ _)) by lia.
Qed.

Lemma getitem_in_range {A} (l : list A) i x :
  0 ≤ i → l !! Z.to_nat i = Some x → PyList.getitem l i = Ok x.
Proof.
  intros Hi Hx. unfold PyList.getitem.
  rewrite position_in_range; [simpl; by rewrite Hx|].
  apply lookup_lt_Some in Hx. lia.
Qed.

Lemma setitem_in_range {A} (l : list A) i x :
  0 ≤ i < Z.of_nat (length l) →
  PyList.setitem l i x = Ok (<[Z.to_nat i := x]> l).
Proof.
  intros Hi. unfold PyList.setitem. by rewrite position_in_range.
Qed.

Lemma place_cell_indexed matrix cell r c row :
  RowIndex cell = Some r → ColumnIndex cell = Some c →
  1 ≤ r → 1 ≤ c →
  matrix !! Z.to_nat (r - 1) = Some row →
  place_cell id_to_block matrix cell
  = Ok (if (c - 1 <? Z.of_nat (length row))
           && Str.truthy (extract_text_from_block cell id_to_block)
        then <[Z.to_nat (r - 1) :=
                 <[Z.to_nat (c - 1) :=
                     extract_text_from_block cell id_to_block]> row]> matrix
        else matrix).
Proof.
  intros Hr Hc Hr1 Hc1 Hrow. unfold place_cell. rewrite Hr, Hc. simpl.
  pose proof (lookup_lt_Some _ _ _ Hrow) as Hlt.
  rewrite (proj2 (Z.ltb_lt _ _)) by lia.
  rewrite (getitem_in_range matrix (r - 1) row) by (done || lia). simpl.
  destruct (c - 1 <? Z.of_nat (length row)) eqn:Hcol; [|done].
  apply Z.ltb_lt in Hcol.
  destruct (Str.truthy _); [|done]. simpl.
  rewrite setitem_in_range by lia. simpl.
  by rewrite setitem_in_range by lia.
Qed.

Lemma entry_insert matrix i0 j0 x row i j s :
  matrix !! i0 = Some row →
  entry (<[i0 := <[j0 := x]> row]> matrix) i j = Some s →
  (i = i0 ∧ j = j0 ∧ s = x) ∨ entry matrix i j = Some s.
Proof.
  intros Hrow. unfold entry.
  destruct (decide (i = i0)) as [->|Hne].
  - rewrite list_lookup_insert_eq by (by eapply lookup_lt_Some).
    rewrite Hrow. simpl.
    intros [(-> & -> & _)|[_ ?]]%list_lookup_insert_Some; auto.
  - rewrite list_lookup_insert_ne by done. auto.
Qed.

Lemma place_cells_grid (nR nC : nat) cells matrix :
  length matrix = nR → Forall (λ row, length row = nC) matrix →
  Forall (λ cell, ∃ r c,
            RowIndex cell = Some r ∧ ColumnIndex cell = Some c
            ∧ 1 ≤ r ≤ Z.of_nat nR ∧ 1 ≤ c ≤ Z.of_nat nC) cells →
  ∃ matrix',
    place_cells id_to_block matrix cells = Ok matrix'
    ∧ length matrix' = nR ∧ Forall (λ row, length row = nC) matrix'
    ∧ ∀ i j s,
        entry matrix' i j = Some s →
        entry matrix i j = Some s
        ∨ (s ≠ "" ∧ ∃ cell,
             cell ∈ cells ∧ s = extract_text_from_block cell id_to_block
             ∧ RowIndex cell = Some (Z.of_nat i + 1)
             ∧ ColumnIndex cell = Some (Z.of_nat j + 1)).
Proof.
  intros Hlen Hrows Hcells. revert matrix Hlen Hrows.
  induction Hcells as [|cell cells (r & c & Hr & Hc & Hrb & Hcb) _ IH];
    intros matrix Hlen Hrows; simpl.
  - exists matrix. split_and!; auto.
  - destruct (lookup_lt_is_Some_2 matrix (Z.to_nat (r - 1))) as [row Hrow];
      [lia|].
    assert (length row = nC) as Hrowlen.
    { rewrite Forall_forall in Hrows. apply Hrows.
      by eapply list_elem_of_lookup_2. }
    rewrite (place_cell_indexed matrix cell r c row) by (done || lia).
    simpl. rewrite (proj2 (Z.ltb_lt _ _)) by lia. simpl.
    set (text := extract_text_from_block cell id_to_block).
    destruct (Str.truthy text) eqn:Htext.
    + destruct (IH (<[Z.to_nat (r - 1) := <[Z.to_nat (c - 1) := text]> row]>
                      matrix))
        as (matrix' & Hplace & Hlen' & Hrows' & Hentries).
      { by rewrite length_insert. }
      { apply Forall_insert; [done|]. by rewrite length_insert. }
      exists matrix'. split_and!; [done..|].
      intros i j s [Hs|(Hne & x & Hx & Hrest)]%Hentries.
      * apply entry_insert in Hs as [(-> & -> & ->)|Hs]; [|by left|done].
        right. split; [by apply truthy_ne|].
        exists cell. split_and!; [by left|done|..].
        -- rewrite Hr. f_equal. lia.
        -- rewrite Hc. f_equal. lia.
      * right. split; [done|]. exists x. split; [by right|done].
    + destruct (IH matrix Hlen Hrows)
        as (matrix' & Hplace & Hlen' & Hrows' & Hentries).
      exists matrix'. split_and!; [done..|].
      intros i j s [Hs|(Hne & x & Hx & Hrest)]%Hentries; [by left|].
      right. split; [done|]. exists x. split; [by right|done].
Qed.

Lemma entry_blank max_row max_col i j s :
  entry (blank_matrix max_row max_col) i j = Some s → s = "".
Proof.
  unfold entry, blank_matrix.
  destruct (replicate _ _ !! i) as [row|] eqn:Hrow; [|done]. simpl.
  apply lookup_replicate in Hrow as [-> _].
  by intros [-> _]%lookup_replicate.
Qed.

End placing.

Section trimmed.

Lemma rstrip_idemp s : Str.rstrip (Str.rstrip s) = Str.rstrip s.
Proof.
  induction s as [|c s IH]; [done|]. simpl.
  destruct (Str.rstrip s) as [|d r] eqn:Hr.
  - destruct (Str.isspace c) eqn:Hc; [done|]. simpl. by rewrite Hc.
  - simpl in *. by rewrite IH.
Qed.

Lemma lstrip_head s :
  Str.lstrip s = "" ∨ ∃ c r, Str.lstrip s = String c r ∧ Str.isspace c = false.
Proof.
  induction s as [|c s IH]; [by left|]. simpl.
  destruct (Str.isspace c) eqn:Hc; [done|]. right. by exists c, s.
Qed.

Lemma lstrip_rstrip_lstrip s :
  Str.lstrip (Str.rstrip (Str.lstrip s)) = Str.rstrip (Str.lstrip s).
Proof.
  destruct (lstrip_head s) as [->|(c & r & -> & Hc)]; [done|]. simpl.
  destruct (Str.rstrip r); rewrite ?Hc; simpl; by rewrite ?Hc.
Qed.

Lemma strip_idemp s : Str.strip (Str.strip s) = Str.strip s.
Proof.
  unfold Str.strip. by rewrite lstrip_rstrip_lstrip, rstrip_idemp.
Qed.

Lemma extract_text_trimmed block (idx : gmap string Block) :
  BlockType block ≠ "WORD" →
  Str.strip (extract_text_from_block block idx)
  = extract_text_from_block block idx.
Proof.
  intros Hw. rewrite extract_text_composite by done. apply strip_idemp.
Qed.

End trimmed.

Section matrix_claims.

Lemma is_maximum_nonneg (cells : list Block) R (f : Block → option Z) :
  (∀ cell x, cell ∈ cells → f cell = Some x → 1 ≤ x) →
  is_maximum R (omap f cells) → 0 ≤ R.
Proof.
  intros Hone [_ [(cell & Hin & Hx)%list_elem_of_omap|[_ ->]]]; [|done].
  specialize (Hone cell R Hin Hx). lia.
Qed.

(** C2. When every CELL child of a table carries a row and a column index
    counted from 1, with maxima [R] and [C], the matrix builder returns a
    grid of exactly [R] rows of exactly [C] columns; every position of it
    holds the empty string or the non-empty, trimmed reconstructed text of
    a CELL child placed there by its indices; and a table without CELL
    children gives a matrix without rows. *)
Theorem matrix_shape_invariant (table_block : Block)
    (idx : gmap string Block) (R C : Z) :
  Forall one_based (cell_children table_block idx) →
  is_maximum R (omap RowIndex (cell_children table_block idx)) →
  is_maximum C (omap ColumnIndex (cell_children table_block idx)) →
  ∃ matrix,
    build_table_matrix table_block idx = Ok matrix
    ∧ Z.of_nat (length matrix) = R
    ∧ Forall (λ row, Z.of_nat (length row) = C) matrix
    ∧ (∀ i j : nat,
         Z.of_nat i < R → Z.of_nat j < C →
         ∃ s, entry matrix i j = Some s
              ∧ (s = ""
                 ∨ (s ≠ "" ∧ Str.strip s = s
                    ∧ ∃ cell,
                        cell ∈ cell_children table_block idx
                        ∧ s = extract_text_from_block cell idx
                        ∧ RowIndex cell = Some (Z.of_nat i + 1)
                        ∧ ColumnIndex cell = Some (Z.of_nat j + 1))))
    ∧ (cell_children table_block idx = [] → matrix = []).
Proof.
  intros Hone HR HC. unfold build_table_matrix.
  rewrite table_cells_spec.
  set (cells := cell_children table_block idx) in *.
  rewrite (grid_extent_maximum cells R C) by done.
  assert (0 ≤ R) as HR0.
  { apply (is_maximum_nonneg cells R RowIndex); [|done].
    intros cell x Hin Hx. rewrite Forall_forall in Hone.
    specialize (Hone cell Hin). unfold one_based in Hone.
    rewrite Hx in Hone. destruct (ColumnIndex cell); [lia|done]. }
  assert (0 ≤ C) as HC0.
  { apply (is_maximum_nonneg cells C ColumnIndex); [|done].
    intros cell x Hin Hx. rewrite Forall_forall in Hone.
    specialize (Hone cell Hin). unfold one_based in Hone.
    rewrite Hx in Hone. destruct (RowIndex cell); [lia|done]. }
  destruct (place_cells_grid idx (Z.to_nat R) (Z.to_nat C) cells
              (blank_matrix R C))
    as (matrix & Hplace & Hlen & Hrows & Hentries).
  { unfold blank_matrix. by rewrite length_replicate. }
  { unfold blank_matrix. apply Forall_replicate. by rewrite length_replicate. }
  { rewrite Forall_forall in Hone |- *. intros cell Hin.
    specialize (Hone cell Hin). unfold one_based in Hone.
    destruct (RowIndex cell) as [r|] eqn:Hr; [|done].
    destruct (ColumnIndex cell) as [c|] eqn:Hc; [|done].
    exists r, c.
    destruct HR as [HRle _], HC as [HCle _].
    rewrite Forall_forall in HRle, HCle.
    assert (r ≤ R) by (apply HRle, list_elem_of_omap; eauto).
    assert (c ≤ C) by (apply HCle, list_elem_of_omap; eauto).
    split_and!; try done; lia. }
  exists matrix. split_and!; [done|lia| | |].
  - eapply Forall_impl; [exact Hrows|]. simpl. intros row Hrow. lia.
  - intros i j Hi Hj.
    destruct (lookup_lt_is_Some_2 matrix i) as [row Hrow]; [lia|].
    assert (length row = Z.to_nat C) as Hrowlen.
    { rewrite Forall_forall in Hrows. apply Hrows.
      by eapply list_elem_of_lookup_2. }
    destruct (lookup_lt_is_Some_2 row j) as [s Hs]; [lia|].
    assert (entry matrix i j = Some s) as He
        by (unfold entry; by rewrite Hrow).
    exists s. split; [done|].
    destruct (Hentries i j s He) as [Hblank|(Hne & cell & Hin & -> & Hpos)].
    + left. by eapply entry_blank.
    + right. split; [done|]. split; [|by exists cell].
      apply extract_text_trimmed.
      by rewrite (cell_children_kind idx table_block cell).
  - intros Hnil. destruct HR as [_ [Hin|[_ ->]]].
    + rewrite Hnil in Hin. by apply elem_of_nil in Hin.
    + by destruct matrix.
Qed.

End matrix_claims.

(** *** Cells with a row index below 1 *)

Section stray_cells.

(** C7. The guard of the matrix builder tests the subscripts against the
    grid from above only. A cell with row index 0 has the subscript -1:
    on a grid without rows the guard itself raises [IndexError], and on a
    grid with rows the text is written into the last row, which is not
    the cell's own position. *)
Theorem build_table_matrix_stray_row :
  build_table_matrix Sample.stray_table
    (build_block_index Sample.stray_cells).1 = Raise IndexError
  ∧ build_table_matrix Sample.wrapping_table
      (build_block_index Sample.wrapping_cells).1 = Ok [["A"]; ["X"]].
Proof. split; by vm_compute. Qed.

(** C3. On a one-page statement whose table has a cell with row index 0
    the extraction raises [IndexError]: it returns neither a value nor an
    absence with a reason. *)
Theorem analyze_pdf_and_extract_stray_row (target_year : option string) :
  analyze_pdf_and_extract Sample.stray_statement target_year
  = Raise IndexError.
Proof. by vm_compute. Qed.

End stray_cells.

(** *** The extraction loop *)

Section extraction.

Lemma table_attempt_returns matrix page target_year :
  ∃ found,
    table_attempt matrix page target_year = Ok found
    ∧ ∀ value debug,
        found = Some (value, debug) →
        value ≠ ""
        ∧ ∃ row0 rest, matrix = row0 :: rest
                       ∧ debug = diagnostic page matrix row0.
Proof.
  unfold table_attempt. destruct matrix as [|row0 rest]; [by exists None|].
  destruct row0 as [|x row0]; [by exists None|].
  set (matrix := (x :: row0) :: rest).
  destruct (find_row_index_by_label matrix "Revenue") as [r|] eqn:Hrow;
    [|by exists None].
  destruct (year_column matrix (x :: row0) target_year) as [c|];
    [|by exists None].
  apply find_row_index_by_label_Some in Hrow as (row & Hr & _).
  rewrite (getitem_in_range matrix (Z.of_nat r) row)
    by (lia || by rewrite Nat2Z.id).
  simpl. destruct (Z.of_nat c <? Z.of_nat (length row)) eqn:Hc;
    [|by exists None].
  apply Z.ltb_lt in Hc.
  destruct (lookup_lt_is_Some_2 row c) as [cell Hcell]; [lia|].
  rewrite (getitem_in_range row (Z.of_nat c) cell)
    by (lia || by rewrite Nat2Z.id).
  simpl. destruct (Str.truthy (Str.strip cell)) eqn:Hv; [|by exists None].
  eexists. split; [done|]. intros value debug [= <- <-].
  split; [by apply truthy_ne|]. by exists (x :: row0), rest.
Qed.

Lemma extract_loop_outcome tables (idx : gmap string Block) page year :
  match extract_loop tables idx page year with
  | Ok (Some value, _) => value ≠ ""
  | Ok (None, reason) =>
      reason = "Revenue not found in tables on target page"
      ∧ ∀ t, t ∈ tables →
             ∃ matrix, build_table_matrix t idx = Ok matrix
                       ∧ table_attempt matrix page year = Ok None
  | Raise e => ∃ t, t ∈ tables ∧ build_table_matrix t idx = Raise e
  end.
Proof.
  induction tables as [|t tables IH]; simpl.
  - split; [done|]. by intros ? ?%elem_of_nil.
  - destruct (build_table_matrix t idx) as [matrix|e] eqn:Hbuild; simpl.
    + destruct (table_attempt_returns matrix page year)
        as (found & Hfound & Hvalue).
      rewrite Hfound. simpl. destruct found as [[value debug]|].
      * by destruct (Hvalue value debug).
      * destruct (extract_loop tables idx page year) as [[[v|] d]|e];
          [done| |].
        -- destruct IH as [-> IH]. split; [done|].
           intros t' [->|Hin]%elem_of_cons; [by exists matrix|auto].
        -- destruct IH as (t' & ? & ?). exists t'. split; [by right|done].
    + exists t. split; [by left|done].
Qed.

Lemma extract_loop_exhausted tables (idx : gmap string Block) page year :
  (∀ t, t ∈ tables →
        ∃ matrix, build_table_matrix t idx = Ok matrix
                  ∧ table_attempt matrix page year = Ok None) →
  extract_loop tables idx page year
  = Ok (None, "Revenue not found in tables on target page").
Proof.
  induction tables as [|t tables IH]; intros Hall; simpl; [done|].
  destruct (Hall t) as (matrix & -> & Hnone); [by left|]. simpl.
  rewrite Hnone. simpl. apply IH. intros t' Hin. apply Hall. by right.
Qed.

(** The outcomes of the extraction, stage by stage. Whenever the matrix of
    every table of the target page can be built, the extraction returns;
    what it returns is a non-empty value with its diagnostic or an absence
    with the reason of the stage that failed. *)
Lemma analyze_pdf_and_extract_outcomes blocks target_year :
  let idx := (build_block_index blocks).1 in
  let target := find_target_page (detect_pages blocks) blocks idx in
  (blocks = [] →
     analyze_pdf_and_extract blocks target_year
     = Ok (None, "No blocks returned"))
  ∧ (blocks ≠ [] → target = None →
     analyze_pdf_and_extract blocks target_year
     = Ok (None,
           "Could not find page containing 'STATEMENT OF PROFIT OR LOSS'"))
  ∧ (∀ page, blocks ≠ [] → target = Some page →
       get_tables_on_page blocks page = [] →
       analyze_pdf_and_extract blocks target_year
       = Ok (None, "No tables found on target page"))
  ∧ (∀ page, blocks ≠ [] → target = Some page →
       get_tables_on_page blocks page ≠ [] →
       (∀ t, t ∈ get_tables_on_page blocks page →
             ∃ matrix, build_table_matrix t idx = Ok matrix
                       ∧ table_attempt matrix page target_year = Ok None) →
       analyze_pdf_and_extract blocks target_year
       = Ok (None, "Revenue not found in tables on target page"))
  ∧ match analyze_pdf_and_extract blocks target_year with
    | Ok (Some value, _) => value ≠ ""
    | Ok (None, reason) =>
        reason ∈ [ "No blocks returned";
                   "Could not find page containing 'STATEMENT OF PROFIT OR LOSS'";
                   "No tables found on target page";
                   "Revenue not found in tables on target page" ]
    | Raise e =>
        ∃ page t, target = Some page ∧ t ∈ get_tables_on_page blocks page
                  ∧ build_table_matrix t idx = Raise e
    end.
Proof.
  intros idx target. subst idx target. unfold analyze_pdf_and_extract.
  destruct blocks as [|b bs].
  { split_and!; try done. by left. }
  set (blocks := b :: bs).
  destruct (build_block_index blocks) as [idx children]. cbn [fst].
  destruct (find_target_page (detect_pages blocks) blocks idx)
    as [page|].
  2: { split_and!; try done. right. by left. }
  pose proof (extract_loop_outcome (get_tables_on_page blocks page) idx
                page target_year) as Hloop.
  pose proof (extract_loop_exhausted (get_tables_on_page blocks page) idx
                page target_year) as Hnone.
  destruct (get_tables_on_page blocks page) as [|t tables] eqn:Htables.
  { split_and!; try done.
    - intros p _ [= <-] Hne. by rewrite Htables in Hne.
    - do 2 right. by left. }
  split_and!; try done.
  - intros p _ [= <-] Hnil. by rewrite Htables in Hnil.
  - intros p _ [= <-] _ Hall. rewrite Htables in Hall. by apply Hnone.
  - destruct (extract_loop (t :: tables) idx page target_year)
      as [[[v|] d]|e]; [done| |].
    + destruct Hloop as [-> _]. do 3 right. by left.
    + destruct Hloop as (t' & ? & ?). exists page, t'.
      by rewrite Htables.
Qed.

End extraction.

(** *** Tables that the builder tolerates *)

Section tolerated.

Variable id_to_block : gmap string Block.

(** A CHILD target that the index does not know contributes no cell. *)
Lemma cell_of_unknown child_id :
  id_to_block !! child_id = None → cell_of id_to_block child_id = [].
Proof. intros Hnone. unfold cell_of. by rewrite Hnone. Qed.

(** A cell whose row lies below the grid is skipped without a write. *)
Lemma place_cell_below_grid matrix cell :
  Z.of_nat (length matrix) ≤ default 1 (RowIndex cell) - 1 →
  place_cell id_to_block matrix cell = Ok matrix.
Proof.
  intros Hr. unfold place_cell.
  by rewrite (proj2 (Z.ltb_ge _ _)) by lia.
Qed.

Lemma place_cell_from_one matrix cell :
  from_one cell → ∃ matrix', place_cell id_to_block matrix cell = Ok matrix'.
Proof.
  intros [Hr Hc]. unfold place_cell.
  destruct (_ <? Z.of_nat (length matrix)) eqn:Hrow; [|by eexists].
  apply Z.ltb_lt in Hrow.
  destruct (lookup_lt_is_Some_2 matrix
              (Z.to_nat (default 1 (RowIndex cell) - 1))) as [row Hlook];
    [lia|].
  rewrite (getitem_in_range matrix _ row) by (done || lia). simpl.
  destruct (_ <? Z.of_nat (length row)) eqn:Hcol; [|by eexists].
  apply Z.ltb_lt in Hcol.
  destruct (Str.truthy _); [|by eexists]. simpl.
  rewrite setitem_in_range by lia. simpl.
  rewrite setitem_in_range by lia. by eexists.
Qed.

Lemma place_cells_from_one cells matrix :
  Forall from_one cells →
  ∃ matrix', place_cells id_to_block matrix cells = Ok matrix'.
Proof.
  intros Hcells. revert matrix.
  induction Hcells as [|cell cells Hcell _ IH]; intros matrix; simpl.
  - by eexists.
  - destruct (place_cell_from_one matrix cell Hcell) as [matrix1 ->].
    simpl. apply IH.
Qed.

(** The builder returns a matrix whenever no CELL child has an index
    below 1; indices may be missing and identifiers unknown. *)
Lemma build_table_matrix_returns table_block :
  Forall from_one (cell_children table_block id_to_block) →
  ∃ matrix, build_table_matrix table_block id_to_block = Ok matrix.
Proof.
  intros Hcells. unfold build_table_matrix. rewrite table_cells_spec.
  destruct (grid_extent _) as [max_row max_col].
  by apply place_cells_from_one.
Qed.

Lemma extract_loop_returns tables page target_year :
  Forall (λ t, Forall from_one (cell_children t id_to_block)) tables →
  ∃ r, extract_loop tables id_to_block page target_year = Ok r.
Proof.
  induction 1 as [|t tables Ht _ IH]; simpl; [by eexists|].
  destruct (build_table_matrix_returns t Ht) as [matrix ->]. simpl.
  destruct (table_attempt_returns matrix page target_year)
    as (found & -> & _).
  simpl. destruct found as [[value debug]|]; [by eexists|apply IH].
Qed.

End tolerated.

(** The extraction returns whenever no CELL child of a table of the
    collection has an index below 1. *)
Lemma analyze_pdf_and_extract_returns blocks target_year :
  Forall (λ t, Forall from_one
                 (cell_children t (build_block_index blocks).1)) blocks →
  ∃ r, analyze_pdf_and_extract blocks target_year = Ok r.
Proof.
  intros Hall. unfold analyze_pdf_and_extract.
  destruct blocks as [|b bs]; [by eexists|].
  destruct (build_block_index (b :: bs)) as [idx children]. cbn [fst] in Hall.
  destruct (find_target_page _ _ _) as [page|]; [|by eexists].
  pose proof (extract_loop_returns idx
                (get_tables_on_page (b :: bs) page) page target_year) as Hloop.
  destruct (get_tables_on_page (b :: bs) page) as [|t tables] eqn:Htables;
    [by eexists|].
  apply Hloop. rewrite <-Htables. unfold get_tables_on_page.
  apply Forall_forall. intros t' [_ Hin]%list_elem_of_filter.
  rewrite Forall_forall in Hall. by apply Hall.
Qed.

(** *** The end-to-end scenario *)

Section scenario.

(** C1. On a document of the single page 1 that holds the phrase and one
    table whose matrix is the header row ["", "2023", "2024"] over the
    data row [label, "100", "120"]: with the label "Revenue" the target
    year "2024" gives the value "120" with the diagnostic
    "page=1, table_extracted_rows=2 cols=3", and no target year gives the
    value "100" of the second column; with the label "Sales" the result
    is the absence "Revenue not found in tables on target page". *)
Theorem end_to_end_scenario (blocks : list Block) (table_block : Block)
    (label : string) :
  detect_pages blocks = [1] →
  page_contains_phrase blocks (build_block_index blocks).1 1 PHRASE = true →
  get_tables_on_page blocks 1 = [table_block] →
  build_table_matrix table_block (build_block_index blocks).1
  = Ok [[""; "2023"; "2024"]; [label; "100"; "120"]] →
  (label = "Revenue" →
     analyze_pdf_and_extract blocks (Some "2024")
     = Ok (Some "120", "page=1, table_extracted_rows=2 cols=3")
     ∧ analyze_pdf_and_extract blocks None
       = Ok (Some "100", "page=1, table_extracted_rows=2 cols=3"))
  ∧ (label = "Sales" →
     ∀ target_year,
       analyze_pdf_and_extract blocks target_year
       = Ok (None, "Revenue not found in tables on target page")).
Proof.
  intros Hpages Hphrase Htables Hmatrix.
  assert (∀ target_year,
            analyze_pdf_and_extract blocks target_year
            = found ← table_attempt
                        [[""; "2023"; "2024"]; [label; "100"; "120"]]
                        1 target_year;
              match found with
              | Some (value, debug) => Ok (Some value, debug)
              | None =>
                  Ok (None, "Revenue not found in tables on target page")
              end) as Hrun.
  { intros target_year. unfold analyze_pdf_and_extract.
    destruct blocks as [|b bs]; [done|].
    destruct (build_block_index (b :: bs)) as [idx children].
    cbn [fst] in *. rewrite Hpages. cbn [find_target_page].
    rewrite Hphrase, Htables. cbn [extract_loop]. by rewrite Hmatrix. }
  split.
  - intros ->. rewrite !Hrun. split; by vm_compute.
  - intros -> target_year. rewrite Hrun. unfold table_attempt.
    cbv beta iota.
    replace (find_row_index_by_label
               [[""; "2023"; "2024"]; ["Sales"; "100"; "120"]] "Revenue")
      with (@None nat) by (by vm_compute).
    done.
Qed.

End scenario.

(** *** The theorems on the sample document *)

Section sample_instances.

Let blocks : list Block := Sample.statement "Revenue".
Let idx : gmap string Block := (build_block_index blocks).1.
Let title : Block := Sample.line "l1" ["w1"; "w2"; "w3"; "w4"; "w5"].
Let matrix : Matrix :=
  [[""; "2023"; "2024"]; ["Revenue"; "100"; "120"]].

Ltac by_decide := apply (bool_decide_unpack _); vm_compute; exact I.

Lemma end_to_end_scenario_witness :
  analyze_pdf_and_extract (Sample.statement "Revenue") (Some "2024")
  = Ok (Some "120", "page=1, table_extracted_rows=2 cols=3")
  ∧ analyze_pdf_and_extract (Sample.statement "Revenue") None
    = Ok (Some "100", "page=1, table_extracted_rows=2 cols=3")
  ∧ analyze_pdf_and_extract (Sample.statement "Sales") None
    = Ok (None, "Revenue not found in tables on target page").
Proof.
  destruct (end_to_end_scenario (Sample.statement "Revenue")
              Sample.the_table "Revenue") as [Hrevenue _];
    [vm_compute; reflexivity..|].
  destruct (end_to_end_scenario (Sample.statement "Sales")
              Sample.the_table "Sales") as [_ Hsales];
    [vm_compute; reflexivity..|].
  destruct (Hrevenue eq_refl) as [Hyear Hfallback].
  split; [exact Hyear|]. split; [exact Hfallback|].
  exact (Hsales eq_refl None).
Defined.

Lemma matrix_shape_invariant_witness :
  Forall one_based (cell_children Sample.the_table idx)
  ∧ is_maximum 2 (omap RowIndex (cell_children Sample.the_table idx))
  ∧ is_maximum 3 (omap ColumnIndex (cell_children Sample.the_table idx))
  ∧ ∃ m, build_table_matrix Sample.the_table idx = Ok m
         ∧ Z.of_nat (length m) = 2
         ∧ Forall (λ row, Z.of_nat (length row) = 3) m.
Proof.
  assert (Forall one_based (cell_children Sample.the_table idx)) as H1
      by by_decide.
  assert (is_maximum 2 (omap RowIndex (cell_children Sample.the_table idx)))
    as H2 by by_decide.
  assert (is_maximum 3
            (omap ColumnIndex (cell_children Sample.the_table idx)))
    as H3 by by_decide.
  split; [exact H1|]. split; [exact H2|]. split; [exact H3|].
  destruct (matrix_shape_invariant Sample.the_table idx 2 3 H1 H2 H3)
    as (m & Hm & Hrows & Hcols & _).
  exists m. split; [exact Hm|]. split; [exact Hrows|exact Hcols].
Defined.

Lemma fallback_column_policy_witness :
  no_year_match matrix None
  ∧ year_column matrix [""; "2023"; "2024"] None = Some 1%nat
  ∧ no_year_match [["Revenue"]] (Some "2024")
  ∧ table_attempt [["Revenue"]] 1 (Some "2024") = Ok None.
Proof.
  assert (no_year_match matrix None) as H1 by exact I.
  assert (no_year_match [["Revenue"]] (Some "2024")) as H2
      by (right; vm_compute; reflexivity).
  split; [exact H1|]. split; [|split; [exact H2|]].
  - apply (fallback_column_policy matrix [""; "2023"; "2024"]
             [["Revenue"; "100"; "120"]] None 1 eq_refl H1).
    simpl. lia.
  - apply (fallback_column_policy [["Revenue"]] ["Revenue"] [] (Some "2024")
             1 eq_refl H2).
    simpl. lia.
Defined.

Lemma resolver_normalization_witness :
  text_variant "Revenue" "  REVENUE "
  ∧ find_row_index_by_label matrix "Revenue"
    = find_row_index_by_label matrix "  REVENUE "
  ∧ is_Some (find_column_index_by_header matrix "2024 ").
Proof.
  assert (text_variant "Revenue" "  REVENUE ") as Hq.
  { exists "", "Revenue", "", "  ", "REVENUE", " ".
    vm_compute. repeat split; reflexivity. }
  assert (Forall2 (Forall2 text_variant) matrix matrix) as Ht
      by (repeat constructor; apply text_variant_refl).
  pose proof (resolver_normalization matrix matrix "Revenue" "  REVENUE ")
    as (Hvariant & _).
  pose proof (resolver_normalization matrix matrix "2024 " "2024 ")
    as (_ & _ & Hfound & _).
  split; [exact Hq|]. split; [exact (proj2 (Hvariant Hq Ht))|].
  apply (Hfound 0%nat [""; "2023"; "2024"] 2%nat "2024");
    [lia|reflexivity|reflexivity|vm_compute; reflexivity].
Defined.

Lemma extract_text_from_block_contract_witness :
  extract_text_from_block (Sample.word "w" " Profit ") idx = " Profit "
  ∧ extract_text_from_block title idx = "Statement of Profit or Loss".
Proof.
  split.
  - destruct (extract_text_from_block_contract
                (Sample.word "w" " Profit ") idx idx) as (Hword & _).
    exact (Hword eq_refl).
  - destruct (extract_text_from_block_contract title idx idx)
      as (_ & Hline & _).
    rewrite Hline; [vm_compute; reflexivity|discriminate].
Defined.

Lemma page_location_witness :
  phrase_on_block idx 1 PHRASE title
  ∧ page_contains_phrase blocks idx 1 PHRASE = true
  ∧ find_target_page (detect_pages blocks) blocks idx = Some 1.
Proof.
  assert (phrase_on_block idx 1 PHRASE title) as Htitle.
  { split; [reflexivity|]. split; [by left|vm_compute; reflexivity]. }
  destruct (page_location blocks idx)
    as (Hany & _ & _ & _ & _ & _ & Hsmallest & _).
  assert (page_contains_phrase blocks idx 1 PHRASE = true) as Hpage.
  { apply Hany. exists title. split; [|exact Htitle].
    apply (list_elem_of_lookup_2 _ 0%nat). reflexivity. }
  split; [exact Htitle|]. split; [exact Hpage|].
  apply Hsmallest.
  assert (detect_pages blocks = [1]) as Hpages by (vm_compute; reflexivity).
  rewrite Hpages. split; [by left|]. split; [exact Hpage|].
  intros q Hq%list_elem_of_singleton _. lia.
Defined.

Lemma build_block_index_complete_witness :
  NoDup (Id <$> blocks)
  ∧ idx !! "t" = Some Sample.the_table
  ∧ (build_block_index blocks).2 !! "t"
    = Some ["c11"; "c12"; "c13"; "c21"; "c22"; "c23"].
Proof.
  assert (NoDup (Id <$> blocks)) as Hnd by by_decide.
  assert (Sample.the_table ∈ blocks) as Hin
      by (apply (list_elem_of_lookup_2 _ 6%nat); reflexivity).
  destruct (build_block_index_complete blocks)
    as (_ & _ & _ & _ & Hunique).
  destruct (Hunique Hnd) as (_ & Hlookup & Hchildren).
  split; [exact Hnd|]. split; [exact (Hlookup Sample.the_table Hin)|].
  apply (Hchildren Sample.the_table
           {| Type_ := "CHILD";
              Ids := ["c11"; "c12"; "c13"; "c21"; "c22"; "c23"] |} "c11");
    [exact Hin|by left|by left|by left].
Defined.

Lemma table_never_matches_witness :
  no_word_children Sample.the_table idx
  ∧ extract_text_from_block Sample.the_table idx = ""
  ∧ page_contains_phrase blocks idx 1 PHRASE
    = page_contains_phrase (filter (λ b, BlockType b ≠ "TABLE") blocks)
        idx 1 PHRASE.
Proof.
  assert (no_word_children Sample.the_table idx) as Hno by by_decide.
  assert (Forall (λ t, BlockType t = "TABLE" → no_word_children t idx)
            blocks) as Hall by by_decide.
  destruct (table_never_matches blocks idx 1 PHRASE) as [Hone Hpage].
  split; [exact Hno|]. split.
  - apply (Hone Sample.the_table eq_refl Hno).
  - apply Hpage; [discriminate|exact Hall].
Defined.

End sample_instances.


(** ** Further properties of the code *)

(** *** The index of a concatenation, duplicates *)

Section index_more.

Lemma build_block_index_app_fst bs1 bs2 :
  (build_block_index (bs1 ++ bs2)).1
  = (build_block_index bs2).1 ∪ (build_block_index bs1).1.
Proof.
  induction bs2 as [|b bs2 IH] using rev_ind.
  - rewrite app_nil_r. simpl. by rewrite (left_id_L ∅ (∪)).
  - rewrite app_assoc, !build_block_index_snoc, !index_block_fst, IH.
    by rewrite insert_union_l.
Qed.

Lemma build_block_index_app_snd bs1 bs2 :
  (build_block_index (bs1 ++ bs2)).2
  = (build_block_index bs2).2 ∪ (build_block_index bs1).2.
Proof.
  induction bs2 as [|b bs2 IH] using rev_ind.
  - rewrite app_nil_r. simpl. by rewrite (left_id_L ∅ (∪)).
  - rewrite app_assoc, !build_block_index_snoc, !index_block_snd, IH.
    destruct (structural_children b); [done|]. by rewrite insert_union_l.
Qed.

Lemma index_lookup_None bs k :
  (build_block_index bs).1 !! k = None ↔ ∀ b, b ∈ bs → Id b ≠ k.
Proof.
  rewrite <-not_elem_of_dom, index_dom, elem_of_list_to_set.
  rewrite list_elem_of_fmap. split.
  - intros Hno b Hb Heq. apply Hno. by exists b.
  - intros Hno (b & Heq & Hb). by apply (Hno b).
Qed.

Lemma children_lookup_Some bs k l :
  (build_block_index bs).2 !! k = Some l →
  l ≠ [] ∧ ∃ b, b ∈ bs ∧ Id b = k ∧ structural_children b = l.
Proof.
  induction bs as [|b0 bs IH] using rev_ind; [done|].
  rewrite build_block_index_snoc, index_block_snd.
  assert ((build_block_index bs).2 !! k = Some l →
          l ≠ [] ∧ ∃ b, b ∈ bs ++ [b0] ∧ Id b = k
                        ∧ structural_children b = l) as Hold.
  { intros (Hne & b & Hb & Hk & Hl)%IH. split; [done|].
    exists b. split; [|done]. apply elem_of_app. by left. }
  destruct (structural_children b0) as [|c cs] eqn:Hcs; [done|].
  destruct (decide (Id b0 = k)) as [<-|Hne].
  - rewrite lookup_insert_eq. intros [= <-]. split; [done|].
    exists b0. split; [|done]. apply elem_of_app. right. by left.
  - by rewrite lookup_insert_ne.
Qed.

Lemma children_lookup_None bs k :
  (build_block_index bs).2 !! k = None ↔
  ∀ b, b ∈ bs → Id b = k → structural_children b = [].
Proof.
  induction bs as [|b0 bs IH] using rev_ind.
  - split; [|done]. by intros _ ? ?%elem_of_nil.
  - rewrite build_block_index_snoc, index_block_snd.
    destruct (structural_children b0) as [|c cs] eqn:Hcs.
    + rewrite IH. split.
      * intros Hall b [Hb|Hb%list_elem_of_singleton]%elem_of_app;
          [auto|by subst].
      * intros Hall b Hb. apply Hall, elem_of_app. by left.
    + destruct (decide (Id b0 = k)) as [<-|Hne].
      * rewrite lookup_insert_eq. split; [done|]. intros Hall.
        rewrite (Hall b0) in Hcs; [done| |done].
        apply elem_of_app. right. by left.
      * rewrite lookup_insert_ne by done. rewrite IH. split.
        -- intros Hall b [Hb|Hb%list_elem_of_singleton]%elem_of_app;
             [auto|by subst].
        -- intros Hall b Hb. apply Hall, elem_of_app. by left.
Qed.

(** X1. Indexing a concatenation is the union of the two indexes in which
    the second collection wins: for both maps, the entries of the blocks
    that come later replace those of the blocks that come earlier. *)
Theorem build_block_index_app (bs1 bs2 : list Block) :
  (build_block_index (bs1 ++ bs2)).1
  = (build_block_index bs2).1 ∪ (build_block_index bs1).1
  ∧ (build_block_index (bs1 ++ bs2)).2
    = (build_block_index bs2).2 ∪ (build_block_index bs1).2.
Proof.
  split; [apply build_block_index_app_fst|apply build_block_index_app_snd].
Qed.

(** X2. With a repeated identifier the last block that carries it is the
    one the id map keeps; an identifier is absent from the map exactly
    when no block carries it. *)
Theorem build_block_index_last_wins (pre post : list Block) (b : Block) :
  (Forall (λ b', Id b' ≠ Id b) post →
     (build_block_index (pre ++ b :: post)).1 !! Id b = Some b)
  ∧ (∀ k, (build_block_index (pre ++ b :: post)).1 !! k = None ↔
          ∀ b', b' ∈ pre ++ b :: post → Id b' ≠ k).
Proof.
  split; [|intros k; apply index_lookup_None].
  intros Hpost. rewrite build_block_index_app_fst.
  apply lookup_union_Some_l.
  change (b :: post) with ([b] ++ post).
  rewrite build_block_index_app_fst, lookup_union_r.
  - change (build_block_index [b]) with (index_block (∅, ∅) b).
    rewrite index_block_fst. apply lookup_insert_eq.
  - apply index_lookup_None. rewrite Forall_forall in Hpost. auto.
Qed.

(** X3. The child map never holds an empty list: a key is present exactly
    when some block with that identifier has a CHILD or MERGED_CELL target,
    and its value is the target list of the last such block, also when a
    later block with the same identifier has no targets (the id map then
    holds that later block). *)
Theorem build_block_index_children (blocks : list Block) :
  (∀ k l, (build_block_index blocks).2 !! k = Some l →
          l ≠ [] ∧ ∃ b, b ∈ blocks ∧ Id b = k ∧ structural_children b = l)
  ∧ (∀ k, (build_block_index blocks).2 !! k = None ↔
          ∀ b, b ∈ blocks → Id b = k → structural_children b = [])
  ∧ (∀ pre b post,
       blocks = pre ++ b :: post → structural_children b ≠ [] →
       Forall (λ b', Id b' = Id b → structural_children b' = []) post →
       (build_block_index blocks).2 !! Id b = Some (structural_children b)).
Proof.
  split_and!.
  - apply children_lookup_Some.
  - apply children_lookup_None.
  - intros pre b post -> Hne Hpost. rewrite build_block_index_app_snd.
    apply lookup_union_Some_l.
    change (b :: post) with ([b] ++ post).
    rewrite build_block_index_app_snd, lookup_union_r.
    + change (build_block_index [b]) with (index_block (∅, ∅) b).
      rewrite index_block_snd. simpl.
      destruct (structural_children b); [done|]. apply lookup_insert_eq.
    + apply children_lookup_None. rewrite Forall_forall in Hpost. auto.
Qed.

End index_more.

(** *** Normalisation, again *)

Section normalisation_more.











End normalisation_more.

(** *** Text reconstruction and the page locator, again *)

Section text_more.

Lemma word_text_of_unknown (idx : gmap string Block) child_id :
  idx !! child_id = None → word_text_of idx child_id = [].
Proof. intros Hnone. unfold word_text_of. by rewrite Hnone. Qed.

(** X5. The text of a block that is not a WORD never starts or ends with
    whitespace (stripping it again changes nothing), and it is empty, with
    no error, when none of the CHILD targets of the block is in the
    index. *)
Theorem extract_text_from_block_trimmed (block : Block)
    (idx : gmap string Block) :
  BlockType block ≠ "WORD" →
  Str.strip (extract_text_from_block block idx)
  = extract_text_from_block block idx
  ∧ (Forall (λ rel, Type_ rel = "CHILD" →
               Forall (λ child_id, idx !! child_id = None) (Ids rel))
       (Relationships block) →
     extract_text_from_block block idx = "").
Proof.
  intros Hw. split; [by apply extract_text_trimmed|].
  intros Hunknown. rewrite extract_text_composite by done.
  unfold immediate_word_texts.
  replace (filter _ _ ≫= _) with (@nil string); [done|].
  induction Hunknown as [|rel rels Hrel _ IH]; [done|].
  destruct (decide (Type_ rel = "CHILD")) as [Hc|Hc].
  - rewrite filter_cons_True by done. rewrite bind_cons, <-IH, app_nil_r.
    specialize (Hrel Hc).
    induction Hrel as [|child_id ids Hid _ IHids]; [done|].
    by rewrite bind_cons, <-IHids, word_text_of_unknown.
  - by rewrite filter_cons_False.
Qed.

Lemma page_contains_phrase_app bs1 bs2 (idx : gmap string Block) p phrase :
  page_contains_phrase (bs1 ++ bs2) idx p phrase
  = page_contains_phrase bs1 idx p phrase
    || page_contains_phrase bs2 idx p phrase.
Proof.
  induction bs1 as [|b bs1 IH]; [done|].
  rewrite <-app_comm_cons, !page_contains_phrase_cons, IH.
  by case_decide.
Qed.

Lemma page_contains_phrase_perm bs bs' (idx : gmap string Block) p phrase :
  bs ≡ₚ bs' →
  page_contains_phrase bs idx p phrase = page_contains_phrase bs' idx p phrase.
Proof.
  intros Hperm.
  destruct (page_contains_phrase bs idx p phrase) eqn:H1,
           (page_contains_phrase bs' idx p phrase) eqn:H2; try done.
  - apply page_contains_phrase_true in H1 as (b & Hb & Hm).
    rewrite Hperm in Hb.
    rewrite <-H2. symmetry. apply page_contains_phrase_true. eauto.
  - apply page_contains_phrase_true in H2 as (b & Hb & Hm).
    rewrite <-Hperm in Hb.
    rewrite <-H1. apply page_contains_phrase_true. eauto.
Qed.

(** X6. The answer of the page locator does not depend on the order of the
    blocks: on a concatenation it is the disjunction of the answers on the
    parts, and a permutation of the blocks gives the same answer. With
    the empty phrase it is true exactly when the page has a LINE, CELL or
    TABLE block at all. *)
Theorem page_contains_phrase_order (bs1 bs2 : list Block)
    (idx : gmap string Block) (p : Z) (phrase : string) :
  page_contains_phrase (bs1 ++ bs2) idx p phrase
  = page_contains_phrase bs1 idx p phrase
    || page_contains_phrase bs2 idx p phrase
  ∧ (bs1 ≡ₚ bs2 →
     page_contains_phrase bs1 idx p phrase
     = page_contains_phrase bs2 idx p phrase)
  ∧ (page_contains_phrase bs1 idx p "" = true ↔
     ∃ b, b ∈ bs1 ∧ read_on_page p b).
Proof.
  split_and!.
  - apply page_contains_phrase_app.
  - apply page_contains_phrase_perm.
  - rewrite page_contains_phrase_true. unfold phrase_on_block, read_on_page.
    split.
    + intros (b & Hb & Hp & Hk & _). by exists b.
    + intros (b & Hb & Hp & Hk). exists b. split_and!; try done.
      by destruct (Str.lower (extract_text_from_block b idx)).
Qed.

Lemma detect_pages_perm (bs bs' : list Block) :
  bs ≡ₚ bs' → detect_pages bs = detect_pages bs'.
Proof.
  intros Hperm. unfold detect_pages.
  by rewrite (list_to_set_perm_L (omap Page bs) (omap Page bs'))
    by (by rewrite Hperm).
Qed.

Lemma find_target_page_ext pages bs bs' (idx : gmap string Block) :
  (∀ q, page_contains_phrase bs idx q PHRASE
        = page_contains_phrase bs' idx q PHRASE) →
  find_target_page pages bs idx = find_target_page pages bs' idx.
Proof.
  intros Hext. induction pages as [|q pages IH]; simpl; [done|].
  by rewrite Hext, IH.
Qed.

(** X7. The pages that are probed and the target page that is chosen do
    not depend on the order in which the service lists the blocks. *)
Theorem target_page_order (bs bs' : list Block) (idx : gmap string Block) :
  bs ≡ₚ bs' →
  detect_pages bs = detect_pages bs'
  ∧ find_target_page (detect_pages bs) bs idx
    = find_target_page (detect_pages bs') bs' idx.
Proof.
  intros Hperm. split; [by apply detect_pages_perm|].
  rewrite (detect_pages_perm bs bs') by done.
  apply find_target_page_ext. intros q. by apply page_contains_phrase_perm.
Qed.

End text_more.

(** *** The table matrix, again *)

Section matrix_more.

Variable id_to_block : gmap string Block.

Lemma position_Ok len i n :
  PyList.position len i = Ok n → (n < len)%nat.
Proof.
  unfold PyList.position.
  destruct (0 <=? i) eqn:H0.
  - destruct (i <? Z.of_nat len) eqn:H1; [|done].
    apply Z.leb_le in H0. apply Z.ltb_lt in H1. intros [= <-]. lia.
  - destruct (- Z.of_nat len <=? i) eqn:H1; [|done].
    apply Z.leb_gt in H0. apply Z.leb_le in H1. intros [= <-]. lia.
Qed.

Lemma getitem_Ok {A} (l : list A) i x :
  PyList.getitem l i = Ok x → x ∈ l.
Proof.
  unfold PyList.getitem. destruct (PyList.position _ _) as [n|]; [|done].
  simpl. destruct (l !! n) eqn:Hn; [|done]. intros [= <-].
  by eapply list_elem_of_lookup_2.
Qed.

Lemma setitem_Ok {A} (l : list A) i x l' :
  PyList.setitem l i x = Ok l' → ∃ n, l' = <[n := x]> l.
Proof.
  unfold PyList.setitem. destruct (PyList.position _ _) as [n|]; [|done].
  simpl. intros [= <-]. by exists n.
Qed.

Lemma place_cell_shape matrix cell matrix' (nC : nat) :
  place_cell id_to_block matrix cell = Ok matrix' →
  length matrix' = length matrix
  ∧ (Forall (λ row, length row = nC) matrix →
     Forall (λ row, length row = nC) matrix').
Proof.
  unfold place_cell.
  destruct (_ <? Z.of_nat (length matrix)); [|by intros [= <-]].
  destruct (PyList.getitem matrix _) as [row|] eqn:Hrow; [|done]. simpl.
  destruct (_ && _); [|by intros [= <-]].
  destruct (PyList.setitem row _ _) as [row'|] eqn:Hrow'; [|done]. simpl.
  intros (n & ->)%setitem_Ok.
  apply setitem_Ok in Hrow' as (k & ->). apply getitem_Ok in Hrow.
  split; [by rewrite length_insert|]. intros Hrows.
  apply Forall_insert; [done|]. rewrite length_insert.
  rewrite Forall_forall in Hrows. by apply Hrows.
Qed.

Lemma place_cells_shape cells matrix matrix' (nC : nat) :
  place_cells id_to_block matrix cells = Ok matrix' →
  length matrix' = length matrix
  ∧ (Forall (λ row, length row = nC) matrix →
     Forall (λ row, length row = nC) matrix').
Proof.
  revert matrix. induction cells as [|cell cells IH]; intros matrix; simpl.
  - by intros [= <-].
  - destruct (place_cell id_to_block matrix cell) as [matrix1|] eqn:Hcell;
      [|done].
    simpl. intros (Hlen & Hrows)%IH.
    apply (place_cell_shape _ _ _ nC) in Hcell as [Hlen1 Hrows1].
    split; [congruence|auto].
Qed.

(** X8. Whenever the builder returns a matrix it is rectangular: it has
    max_row rows of max_col columns each, where max_row (max_col) is 0 or
    the largest row (column) index that a CELL child carries, whichever is
    greater; no write changes the shape, also for a cell whose index is
    below 1. *)
Theorem build_table_matrix_rectangular (table_block : Block)
    (matrix : Matrix) :
  build_table_matrix table_block id_to_block = Ok matrix →
  ∃ max_row max_col : Z,
    0 ≤ max_row ∧ 0 ≤ max_col
    ∧ Z.of_nat (length matrix) = max_row
    ∧ Forall (λ row, Z.of_nat (length row) = max_col) matrix
    ∧ (∀ cell r, cell ∈ cell_children table_block id_to_block →
                 RowIndex cell = Some r → r ≤ max_row)
    ∧ (∀ cell c, cell ∈ cell_children table_block id_to_block →
                 ColumnIndex cell = Some c → c ≤ max_col)
    ∧ (max_row = 0
       ∨ ∃ cell, cell ∈ cell_children table_block id_to_block
                 ∧ RowIndex cell = Some max_row)
    ∧ (max_col = 0
       ∨ ∃ cell, cell ∈ cell_children table_block id_to_block
                 ∧ ColumnIndex cell = Some max_col).
Proof.
  unfold build_table_matrix. rewrite table_cells_spec.
  set (cells := cell_children table_block id_to_block).
  unfold grid_extent.
  destruct (grid_extent_fold cells 0 0)
    as (mr & mc & -> & Hr0 & Hc0 & Hall & Hr & Hc).
  intros Hplace.
  apply (place_cells_shape _ _ _ (Z.to_nat mc)) in Hplace as [Hlen Hrows].
  unfold blank_matrix in Hlen, Hrows. rewrite length_replicate in Hlen.
  exists mr, mc. split_and!; [done|done|lia| | | | |].
  - eapply Forall_impl.
    + apply Hrows, Forall_replicate. by rewrite length_replicate.
    + simpl. intros row Hrow. lia.
  - intros cell r Hin Hrow. destruct (Hall cell Hin) as [Hle _].
    by rewrite Hrow in Hle.
  - intros cell c Hin Hcol. destruct (Hall cell Hin) as [_ Hle].
    by rewrite Hcol in Hle.
  - destruct Hr as [->|(cell & Hin & ->)]; [by left|].
    destruct (RowIndex cell) as [r|] eqn:Hrow; [|by left].
    right. by exists cell.
  - destruct Hc as [->|(cell & Hin & ->)]; [by left|].
    destruct (ColumnIndex cell) as [c|] eqn:Hcol; [|by left].
    right. by exists cell.
Qed.

(** X9. The builder raises only [IndexError], only for a table that has a
    CELL child with a row or column index below 1; a table whose cells
    have indices of at least 1 or none, and whose CHILD targets may be
    unknown to the index, always gives a matrix. *)
Theorem build_table_matrix_raises_only_stray (table_block : Block) :
  (Forall from_one (cell_children table_block id_to_block) →
     ∃ matrix, build_table_matrix table_block id_to_block = Ok matrix)
  ∧ (∀ e, build_table_matrix table_block id_to_block = Raise e →
          e = IndexError
          ∧ ∃ cell, cell ∈ cell_children table_block id_to_block
                    ∧ (default 1 (RowIndex cell) < 1
                       ∨ default 1 (ColumnIndex cell) < 1)).
Proof.
  split; [apply build_table_matrix_returns|].
  intros e Hraise. split; [by destruct e|].
  destruct (decide (Forall from_one (cell_children table_block id_to_block)))
    as [Hall|Hnot].
  - destruct (build_table_matrix_returns id_to_block table_block Hall)
      as [matrix Hok].
    congruence.
  - apply not_Forall_Exists in Hnot; [|apply _].
    apply Exists_exists in Hnot as (cell & Hin & Hcell).
    exists cell. split; [done|]. unfold from_one in Hcell.
    apply not_and_l in Hcell as [Hr|Hc]; [left|right]; lia.
Qed.

End matrix_more.

Section last_writer.

Variable id_to_block : gmap string Block.

Lemma place_cells_snoc cells cell matrix :
  place_cells id_to_block matrix (cells ++ [cell])
  = matrix' ← place_cells id_to_block matrix cells;
    place_cell id_to_block matrix' cell.
Proof.
  revert matrix. induction cells as [|c cells IH]; intros matrix; simpl.
  - by destruct (place_cell id_to_block matrix cell).
  - destruct (place_cell id_to_block matrix c) as [matrix1|]; [|done].
    simpl. apply IH.
Qed.

Lemma entry_insert_same (matrix : Matrix) i0 j0 x row :
  matrix !! i0 = Some row → (j0 < length row)%nat →
  entry (<[i0 := <[j0 := x]> row]> matrix) i0 j0 = Some x.
Proof.
  intros Hrow Hj. unfold entry.
  rewrite list_lookup_insert_eq by (by eapply lookup_lt_Some). simpl.
  by apply list_lookup_insert_eq.
Qed.

Lemma entry_insert_other (matrix : Matrix) i0 j0 x row i j :
  matrix !! i0 = Some row → ¬ (i = i0 ∧ j = j0) →
  entry (<[i0 := <[j0 := x]> row]> matrix) i j = entry matrix i j.
Proof.
  intros Hrow Hne. unfold entry.
  destruct (decide (i = i0)) as [->|Hi].
  - rewrite list_lookup_insert_eq by (by eapply lookup_lt_Some).
    rewrite Hrow. simpl. apply list_lookup_insert_ne. naive_solver.
  - by rewrite list_lookup_insert_ne.
Qed.

Lemma entry_in_grid (matrix : Matrix) (nC i j : nat) :
  Forall (λ row, length row = nC) matrix →
  (i < length matrix)%nat → (j < nC)%nat → is_Some (entry matrix i j).
Proof.
  intros Hrows Hi Hj. unfold entry.
  destruct (lookup_lt_is_Some_2 matrix i Hi) as [row Hrow].
  rewrite Hrow. simpl. apply lookup_lt_is_Some_2.
  rewrite Forall_forall in Hrows.
  rewrite (Hrows row) by (by eapply list_elem_of_lookup_2). done.
Qed.

Lemma place_cells_last (nR nC : nat) cells matrix0 :
  length matrix0 = nR → Forall (λ row, length row = nC) matrix0 →
  Forall (λ cell, ∃ r c,
            RowIndex cell = Some r ∧ ColumnIndex cell = Some c
            ∧ 1 ≤ r ≤ Z.of_nat nR ∧ 1 ≤ c ≤ Z.of_nat nC) cells →
  ∃ matrix,
    place_cells id_to_block matrix0 cells = Ok matrix
    ∧ length matrix = nR ∧ Forall (λ row, length row = nC) matrix
    ∧ ∀ i j,
        entry matrix i j
        = (λ s0, from_option
                   (λ cell, extract_text_from_block cell id_to_block) s0
                   (last (filter (writes_at id_to_block i j) cells)))
          <$> entry matrix0 i j.
Proof.
  intros Hlen Hrows.
  induction cells as [|cell cells IH] using rev_ind; intros Hcells.
  - exists matrix0. split_and!; try done.
    intros i j. simpl. by destruct (entry matrix0 i j).
  - apply Forall_app in Hcells as [Hcells Hcell].
    apply Forall_singleton in Hcell as (r & c & Hr & Hc & Hrb & Hcb).
    destruct (IH Hcells) as (matrix1 & Hplace & Hlen1 & Hrows1 & Hentries).
    rewrite place_cells_snoc, Hplace. simpl.
    destruct (lookup_lt_is_Some_2 matrix1 (Z.to_nat (r - 1))) as [row Hrow];
      [lia|].
    assert (length row = nC) as Hrowlen.
    { rewrite Forall_forall in Hrows1. apply Hrows1.
      by eapply list_elem_of_lookup_2. }
    rewrite (place_cell_indexed id_to_block matrix1 cell r c row)
      by (done || lia).
    rewrite (proj2 (Z.ltb_lt _ _)) by lia. simpl.
    set (text := extract_text_from_block cell id_to_block) in *.
    assert (∀ i j, writes_at id_to_block i j cell ↔
                   (i = Z.to_nat (r - 1) ∧ j = Z.to_nat (c - 1))
                   ∧ text ≠ "") as Hwrites.
    { intros i j. unfold writes_at. rewrite Hr, Hc. fold text. split.
      - intros ([= ->] & [= ->] & Hne). split; [lia|done].
      - intros ([-> ->] & Hne). split_and!; [f_equal; lia..|done]. }
    destruct (Str.truthy text) eqn:Htext.
    + eexists. split; [done|].
      split; [by rewrite length_insert|].
      split; [apply Forall_insert; [done|by rewrite length_insert]|].
      intros i j. rewrite filter_app.
      destruct (decide (writes_at id_to_block i j cell)) as [Hw|Hw].
      * rewrite (filter_cons_True _ cell []) by done.
        rewrite filter_nil, last_snoc. simpl.
        apply Hwrites in Hw as [[-> ->] _].
        rewrite entry_insert_same by (done || lia).
        destruct (entry_in_grid matrix0 nC (Z.to_nat (r - 1))
                    (Z.to_nat (c - 1))) as [s0 ->]; [done|lia|lia|done].
      * rewrite (filter_cons_False _ cell []) by done.
        rewrite filter_nil, app_nil_r, <-Hentries.
        apply entry_insert_other; [done|].
        intros Hpos. apply Hw, Hwrites. split; [done|by apply truthy_ne].
    + exists matrix1. split_and!; try done.
      intros i j. rewrite filter_app.
      rewrite (filter_cons_False _ cell []).
      * by rewrite filter_nil, app_nil_r, <-Hentries.
      * intros [_ Hne]%Hwrites. by apply truthy_false in Htext.
Qed.

(** X10. When every CELL child carries both indices, counted from 1, the
    entry of the matrix at a position is the text of the last CELL child,
    in child order, that carries that position and has non-empty text, and
    the empty string when there is none: a later cell overwrites an earlier
    one, and a cell with empty text erases nothing. *)
Theorem build_table_matrix_last_writer (table_block : Block) :
  Forall one_based (cell_children table_block id_to_block) →
  ∃ matrix,
    build_table_matrix table_block id_to_block = Ok matrix
    ∧ ∀ i j s,
        entry matrix i j = Some s →
        s = last_written id_to_block
              (cell_children table_block id_to_block) i j.
Proof.
  intros Hone. unfold build_table_matrix. rewrite table_cells_spec.
  set (cells := cell_children table_block id_to_block) in *.
  unfold grid_extent.
  destruct (grid_extent_fold cells 0 0)
    as (mr & mc & -> & Hr0 & Hc0 & Hall & _ & _).
  destruct (place_cells_last (Z.to_nat mr) (Z.to_nat mc) cells
              (blank_matrix mr mc))
    as (matrix & Hplace & _ & _ & Hentries).
  { unfold blank_matrix. by rewrite length_replicate. }
  { unfold blank_matrix. apply Forall_replicate. by rewrite length_replicate. }
  { rewrite Forall_forall in Hone |- *. intros cell Hin.
    specialize (Hone cell Hin). destruct (Hall cell Hin) as [Hr Hc].
    unfold one_based in Hone.
    destruct (RowIndex cell) as [r|]; [|done].
    destruct (ColumnIndex cell) as [c|]; [|done].
    exists r, c. simpl in *. split_and!; try done; lia. }
  exists matrix. split; [done|]. intros i j s. rewrite Hentries.
  destruct (entry (blank_matrix mr mc) i j) as [s0|] eqn:Hblank; [|done].
  apply entry_blank in Hblank as ->. simpl. by intros [= <-].
Qed.

End last_writer.

(** *** The two searches, exactly *)

Section searches.

Lemma first_column_matches_cons target first rest :
  first_column_matches target (first :: rest)
  = Str.contains target (normalize first).
Proof. apply cell_matches_contains. Qed.

(** X11. The row search returns the first row, from the top, that is not
    empty and whose first column contains the normalised label; empty
    rows are passed over; it returns nothing exactly when there is no such
    row, and a returned index is a row of the table. *)
Theorem find_row_index_by_label_first (table : Matrix) (label : string) :
  (∀ r, find_row_index_by_label table label = Some r ↔
        ∃ first rest,
          table !! r = Some (first :: rest)
          ∧ Str.contains (normalize label) (normalize first) = true
          ∧ ∀ j f rest', (j < r)%nat → table !! j = Some (f :: rest') →
              Str.contains (normalize label) (normalize f) = false)
  ∧ (find_row_index_by_label table label = None ↔
     ∀ j f rest', table !! j = Some (f :: rest') →
       Str.contains (normalize label) (normalize f) = false)
  ∧ (∀ r, find_row_index_by_label table label = Some r →
          (r < length table)%nat).
Proof.
  split_and!.
  - intros r. rewrite find_row_index_by_label_Some. split.
    + intros (row & Hrow & Hm & Hfirst).
      destruct row as [|first rest]; [done|].
      exists first, rest.
      rewrite <-(first_column_matches_cons _ first rest).
      split_and!; [done|done|].
      intros j f rest' Hj Hf. rewrite <-(first_column_matches_cons _ f rest').
      by apply (Hfirst j).
    + intros (first & rest & Hrow & Hm & Hfirst).
      exists (first :: rest). rewrite first_column_matches_cons.
      split_and!; [done|done|].
      intros j [|f rest'] Hj Hf; [done|].
      rewrite first_column_matches_cons. by apply (Hfirst j f rest').
  - unfold find_row_index_by_label.
    rewrite scan_label_rows_first, first_index_None, Forall_forall. split.
    + intros Hnone j f rest' Hrow.
      rewrite <-(first_column_matches_cons _ f rest').
      apply Hnone. by eapply list_elem_of_lookup_2.
    + intros Hnone [|f rest'] Hin; [done|].
      apply list_elem_of_lookup_1 in Hin as [j Hj].
      rewrite first_column_matches_cons. by apply (Hnone j f rest').
  - intros r (row & Hrow & _)%find_row_index_by_label_Some.
    by eapply lookup_lt_Some.
Qed.

Lemma scan_header_row_match row target c :
  scan_header_row row 0 target = Some c ↔ first_match_at target row c.
Proof.
  rewrite scan_header_row_first, first_index_Some. unfold first_match_at.
  split.
  - intros (i & v & -> & Hv & Hm & Hfirst). split; [by exists v|done].
  - intros [(v & Hv & Hm) Hfirst]. by exists c, v.
Qed.

Lemma scan_header_row_no_match row target :
  scan_header_row row 0 target = None ↔
  Forall (λ v, cell_matches target v = false) row.
Proof. by rewrite scan_header_row_first, first_index_None. Qed.

Lemma find_column_index_by_header_scan table header_query c :
  find_column_index_by_header table header_query = Some c ↔
  (∃ row0, table !! 0%nat = Some row0
           ∧ scan_header_row row0 0 (normalize header_query) = Some c)
  ∨ (∃ row0 row1,
       table !! 0%nat = Some row0
       ∧ scan_header_row row0 0 (normalize header_query) = None
       ∧ table !! 1%nat = Some row1
       ∧ scan_header_row row1 0 (normalize header_query) = Some c).
Proof.
  unfold find_column_index_by_header.
  destruct table as [|row0 [|row1 rest]]; simpl.
  - split; [done|]. by intros [(? & ? & _)|(? & ? & ? & _)].
  - destruct (scan_header_row row0 0 _) as [c0|] eqn:H0; split.
    + intros [= <-]. left. by exists row0.
    + intros [(r & [= <-] & Hc)|(r & r1 & [= <-] & Hn & _)]; congruence.
    + done.
    + intros [(r & [= <-] & Hc)|(r & r1 & _ & _ & ? & _)]; [congruence|done].
  - destruct (scan_header_row row0 0 _) as [c0|] eqn:H0.
    + split.
      * intros [= <-]. left. by exists row0.
      * intros [(r & [= <-] & Hc)|(r & r1 & [= <-] & Hn & _)]; congruence.
    + destruct (scan_header_row row1 0 _) as [c1|] eqn:H1; split.
      * intros [= <-]. right. by exists row0, row1.
      * intros [(r & [= <-] & Hc)|(r & r1 & [= <-] & _ & [= <-] & Hc)];
          congruence.
      * done.
      * intros [(r & [= <-] & Hc)|(r & r1 & [= <-] & _ & [= <-] & Hc)];
          congruence.
Qed.

Lemma find_column_index_by_header_None table header_query :
  find_column_index_by_header table header_query = None ↔
  ∀ i row, (i < 2)%nat → table !! i = Some row →
           scan_header_row row 0 (normalize header_query) = None.
Proof.
  unfold find_column_index_by_header.
  destruct table as [|row0 [|row1 rest]]; simpl.
  - split; [|done]. by intros _ [|[|i]] row Hi Hrow.
  - destruct (scan_header_row row0 0 _) eqn:H0.
    + split; [done|]. intros Hall.
      rewrite (Hall 0%nat row0) in H0; [done|lia|done].
    + split; [|done]. intros _ [|[|i]] row Hi Hrow; simplify_eq/=; done.
  - destruct (scan_header_row row0 0 _) eqn:H0.
    + split; [done|]. intros Hall.
      rewrite (Hall 0%nat row0) in H0; [done|lia|done].
    + destruct (scan_header_row row1 0 _) eqn:H1.
      * split; [done|]. intros Hall.
        rewrite (Hall 1%nat row1) in H1; [done|lia|done].
      * split; [|done]. intros _ [|[|i]] row Hi Hrow; simplify_eq/=;
          done || lia.
Qed.

(** X12. The column search reads the first two rows only, the first row
    before the second: it returns the column of the first matching cell of
    the first row when that row has one, else that of the first matching
    cell of the second row, and nothing exactly when no cell of the first
    two rows matches; rows below the second never count. *)
Theorem find_column_index_by_header_first (table : Matrix)
    (header_query : string) :
  let target := normalize header_query in
  (∀ c, find_column_index_by_header table header_query = Some c ↔
        (∃ row0, table !! 0%nat = Some row0 ∧ first_match_at target row0 c)
        ∨ (∃ row0 row1,
             table !! 0%nat = Some row0
             ∧ Forall (λ v, cell_matches target v = false) row0
             ∧ table !! 1%nat = Some row1
             ∧ first_match_at target row1 c))
  ∧ (find_column_index_by_header table header_query = None ↔
     ∀ i row, (i < 2)%nat → table !! i = Some row →
              Forall (λ v, cell_matches target v = false) row)
  ∧ find_column_index_by_header table header_query
    = find_column_index_by_header (take 2 table) header_query.
Proof.
  intros target. subst target. split_and!.
  - intros c. rewrite find_column_index_by_header_scan. split.
    + intros [(row0 & H0 & Hc)|(row0 & row1 & H0 & Hnone & H1 & Hc)].
      * left. exists row0. by rewrite <-scan_header_row_match.
      * right. exists row0, row1.
        by rewrite <-scan_header_row_match, <-scan_header_row_no_match.
    + intros [(row0 & H0 & Hc)|(row0 & row1 & H0 & Hnone & H1 & Hc)].
      * left. exists row0. by rewrite scan_header_row_match.
      * right. exists row0, row1.
        by rewrite scan_header_row_match, scan_header_row_no_match.
  - rewrite find_column_index_by_header_None. split.
    + intros Hall i row Hi Hrow. apply scan_header_row_no_match. eauto.
    + intros Hall i row Hi Hrow. apply scan_header_row_no_match. eauto.
  - unfold find_column_index_by_header.
    by destruct table as [|row0 [|row1 rest]].
Qed.

End searches.

(** *** The extraction, again *)

Section extraction_more.

Lemma getitem_nat {A} (l : list A) (n : nat) :
  PyList.getitem l (Z.of_nat n)
  = match l !! n with Some x => Ok x | None => Raise IndexError end.
Proof.
  unfold PyList.getitem, PyList.position.
  rewrite (proj2 (Z.leb_le _ _)) by lia.
  destruct (Z.of_nat n <? Z.of_nat (length l)) eqn:Hn.
  - simpl. by rewrite Nat2Z.id.
  - apply Z.ltb_ge in Hn. simpl. rewrite lookup_ge_None_2; [done|lia].
Qed.

Lemma table_attempt_Some matrix page target_year value debug :
  table_attempt matrix page target_year = Ok (Some (value, debug)) ↔
  ∃ row0 rest r c row cell,
    matrix = row0 :: rest ∧ row0 ≠ []
    ∧ find_row_index_by_label matrix "Revenue" = Some r
    ∧ year_column matrix row0 target_year = Some c
    ∧ matrix !! r = Some row ∧ row !! c = Some cell
    ∧ value = Str.strip cell ∧ value ≠ ""
    ∧ debug = diagnostic page matrix row0.
Proof.
  split.
  - unfold table_attempt. destruct matrix as [|row0 rest]; [done|].
    destruct row0 as [|x row0]; [done|].
    set (matrix := (x :: row0) :: rest).
    destruct (find_row_index_by_label matrix "Revenue") as [r|] eqn:Hrow;
      [|done].
    destruct (year_column matrix (x :: row0) target_year) as [c|] eqn:Hcol;
      [|done].
    rewrite getitem_nat. destruct (matrix !! r) as [row|] eqn:Hr; [|done].
    simpl. destruct (Z.of_nat c <? Z.of_nat (length row)); [|done].
    rewrite getitem_nat. destruct (row !! c) as [cell|] eqn:Hc; [|done].
    simpl. destruct (Str.truthy (Str.strip cell)) eqn:Hv; [|done].
    intros [= <- <-]. exists (x :: row0), rest, r, c, row, cell.
    split_and!; try done. by apply truthy_ne.
  - intros (row0 & rest & r & c & row & cell & -> & Hne & Hrow & Hcol & Hr
            & Hc & -> & Hv & ->).
    unfold table_attempt. destruct row0 as [|x row0]; [done|].
    rewrite Hrow, Hcol, getitem_nat, Hr. simpl.
    rewrite (proj2 (Z.ltb_lt _ _))
      by (apply lookup_lt_Some in Hc; lia).
    rewrite getitem_nat, Hc. simpl.
    by rewrite (proj2 (truthy_ne _) Hv).
Qed.

Lemma extract_loop_Some tables (idx : gmap string Block) page year v d :
  extract_loop tables idx page year = Ok (Some v, d) ↔
  ∃ pre t post matrix,
    tables = pre ++ t :: post
    ∧ (∀ t', t' ∈ pre →
             ∃ matrix', build_table_matrix t' idx = Ok matrix'
                        ∧ table_attempt matrix' page year = Ok None)
    ∧ build_table_matrix t idx = Ok matrix
    ∧ table_attempt matrix page year = Ok (Some (v, d)).
Proof.
  induction tables as [|t0 tables IH]; simpl.
  - split; [done|]. intros (pre & ? & ? & ? & Heq & _). by destruct pre.
  - assert (∀ pre t post matrix,
              t0 :: tables = pre ++ t :: post →
              (∀ t', t' ∈ pre →
                 ∃ matrix', build_table_matrix t' idx = Ok matrix'
                            ∧ table_attempt matrix' page year = Ok None) →
              build_table_matrix t idx = Ok matrix →
              table_attempt matrix page year = Ok (Some (v, d)) →
              (pre = [] ∧ t = t0 ∧ post = tables)
              ∨ (∃ pre' matrix0,
                   pre = t0 :: pre' ∧ tables = pre' ++ t :: post
                   ∧ build_table_matrix t0 idx = Ok matrix0
                   ∧ table_attempt matrix0 page year = Ok None)) as Hcases.
    { intros pre t post matrix Heq Hpre Hb Ha.
      destruct pre as [|x pre]; simpl in Heq; injection Heq as ? ?; subst.
      - by left.
      - right. destruct (Hpre x) as (m' & ? & ?); [by left|].
        by exists pre, m'. }
    destruct (build_table_matrix t0 idx) as [m0|e] eqn:Hbuild; simpl.
    + destruct (table_attempt m0 page year) as [[[v0 d0]|]|e] eqn:Hattempt;
        simpl.
      * split.
        -- intros [= <- <-]. exists [], t0, tables, m0.
           split_and!; try done. by intros ? ?%elem_of_nil.
        -- intros (pre & t & post & m & Heq & Hpre & Hb & Ha).
           destruct (Hcases pre t post m Heq Hpre Hb Ha)
             as [(-> & -> & ->)|(pre' & m' & -> & -> & ? & ?)]; congruence.
      * rewrite IH. split.
        -- intros (pre & t & post & m & -> & Hpre & Hb & Ha).
           exists (t0 :: pre), t, post, m. split_and!; try done.
           intros t' [->|Hin]%elem_of_cons; [by exists m0|auto].
        -- intros (pre & t & post & m & Heq & Hpre & Hb & Ha).
           destruct (Hcases pre t post m Heq Hpre Hb Ha)
             as [(-> & -> & ->)|(pre' & m' & -> & -> & ? & ?)];
             [congruence|].
           exists pre', t, post, m. split_and!; try done.
           intros t' Hin. apply Hpre. by right.
      * split; [done|]. intros (pre & t & post & m & Heq & Hpre & Hb & Ha).
        destruct (Hcases pre t post m Heq Hpre Hb Ha)
          as [(-> & -> & ->)|(pre' & m' & -> & -> & ? & ?)]; congruence.
    + split; [done|]. intros (pre & t & post & m & Heq & Hpre & Hb & Ha).
      destruct (Hcases pre t post m Heq Hpre Hb Ha)
        as [(-> & -> & ->)|(pre' & m' & -> & -> & ? & ?)]; congruence.
Qed.

Lemma table_attempt_year_ext matrix page y1 y2 :
  (∀ row0 rest, matrix = row0 :: rest →
     year_column matrix row0 y1 = year_column matrix row0 y2) →
  table_attempt matrix page y1 = table_attempt matrix page y2.
Proof.
  intros Hext. unfold table_attempt. destruct matrix as [|row0 rest]; [done|].
  destruct row0 as [|x row0]; [done|]. by rewrite (Hext (x :: row0) rest).
Qed.

Lemma year_column_no_match matrix row0 y :
  no_year_match matrix (Some y) →
  year_column matrix row0 (Some y) = year_column matrix row0 None.
Proof.
  intros [->|Hnone]; [done|]. unfold year_column. rewrite Hnone.
  by destruct (Str.truthy y).
Qed.

Lemma extract_loop_year_ext tables (idx : gmap string Block) page y1 y2 :
  (∀ t matrix, t ∈ tables → build_table_matrix t idx = Ok matrix →
     table_attempt matrix page y1 = table_attempt matrix page y2) →
  extract_loop tables idx page y1 = extract_loop tables idx page y2.
Proof.
  induction tables as [|t tables IH]; intros Hext; simpl; [done|].
  destruct (build_table_matrix t idx) as [matrix|e] eqn:Hbuild; [|done].
  simpl. rewrite (Hext t matrix) by (done || by left).
  destruct (table_attempt matrix page y2) as [[[v d]|]|e]; simpl; try done.
  apply IH. intros t' m' Hin. apply Hext. by right.
Qed.

End extraction_more.

Section analysis_more.

Lemma diagnostic_truthy page matrix row0 :
  Str.truthy (diagnostic page matrix row0) = true.
Proof. reflexivity. Qed.

Lemma extract_loop_raises pre t post (idx : gmap string Block) page year e :
  (∀ t', t' ∈ pre →
         ∃ matrix', build_table_matrix t' idx = Ok matrix'
                    ∧ table_attempt matrix' page year = Ok None) →
  build_table_matrix t idx = Raise e →
  extract_loop (pre ++ t :: post) idx page year = Raise e.
Proof.
  intros Hpre Hraise. induction pre as [|x pre IH]; simpl.
  - by rewrite Hraise.
  - destruct (Hpre x) as (m & -> & Hnone); [by left|]. simpl.
    rewrite Hnone. simpl. apply IH. intros t' Hin. apply Hpre. by right.
Qed.

Lemma analyze_pdf_and_extract_Some blocks year v d :
  analyze_pdf_and_extract blocks year = Ok (Some v, d) ↔
  ∃ page,
    find_target_page (detect_pages blocks) blocks (build_block_index blocks).1
    = Some page
    ∧ extract_loop (get_tables_on_page blocks page)
        (build_block_index blocks).1 page year = Ok (Some v, d).
Proof.
  unfold analyze_pdf_and_extract. destruct blocks as [|b bs].
  - split; [done|]. by intros (page & ? & _).
  - destruct (build_block_index (b :: bs)) as [idx children]. cbn [fst].
    destruct (find_target_page _ _ _) as [page|].
    + destruct (get_tables_on_page (b :: bs) page) as [|t tables] eqn:Ht.
      * split; [done|]. intros (p & [= <-] & Hloop). by rewrite Ht in Hloop.
      * split.
        -- intros Hloop. exists page. by rewrite Ht.
        -- intros (p & [= <-] & Hloop). by rewrite Ht in Hloop.
    + split; [done|]. by intros (page & ? & _).
Qed.

End analysis_more.

Section analysis_claims_more.

(** X13. A target year that is empty, or that no header of a table of the
    target page matches, gives exactly the result of a run without a target
    year: the extraction falls back to the second column without saying
    so. *)
Theorem unmatched_year_as_no_year (blocks : list Block) (y : string) :
  (y = ""
   ∨ ∀ page t matrix,
       find_target_page (detect_pages blocks) blocks
         (build_block_index blocks).1 = Some page →
       t ∈ get_tables_on_page blocks page →
       build_table_matrix t (build_block_index blocks).1 = Ok matrix →
       find_column_index_by_header matrix y = None) →
  analyze_pdf_and_extract blocks (Some y)
  = analyze_pdf_and_extract blocks None.
Proof.
  intros Hyear. unfold analyze_pdf_and_extract.
  destruct blocks as [|b bs]; [done|].
  destruct (build_block_index (b :: bs)) as [idx children]. cbn [fst] in *.
  destruct (find_target_page _ _ _) as [page|]; [|done].
  destruct (get_tables_on_page (b :: bs) page) as [|t tables] eqn:Ht; [done|].
  apply extract_loop_year_ext. intros t' matrix Hin Hbuild.
  apply table_attempt_year_ext. intros row0 rest _.
  apply year_column_no_match.
  destruct Hyear as [->|Hnone]; [by left|right].
  apply (Hnone page t'); [done| |done]. by rewrite Ht.
Qed.

(** X14. A target year of whitespace only is not taken as absent: it
    normalises to the empty string, which every header cell contains, so
    the column is 0 and the value returned for a table with a revenue row
    is the label of that row itself. *)
Theorem blank_year_selects_label (matrix : Matrix) (row0 : list string)
    (rest : Matrix) (page : Z) (y : string) (r : nat)
    (first : string) (others : list string) :
  matrix = row0 :: rest → row0 ≠ [] →
  y ≠ "" → all_space y = true →
  find_row_index_by_label matrix "Revenue" = Some r →
  matrix !! r = Some (first :: others) →
  year_column matrix row0 (Some y) = Some 0%nat
  ∧ table_attempt matrix page (Some y)
    = Ok (Some (Str.strip first, diagnostic page matrix row0)).
Proof.
  intros -> Hrow0 Hy Hspace Hrow Hr.
  assert (normalize y = "") as Hnorm.
  { unfold normalize, Str.strip.
    by rewrite (lstrip_all_space y Hspace). }
  assert (year_column (row0 :: rest) row0 (Some y) = Some 0%nat) as Hcol.
  { unfold year_column. rewrite (proj2 (truthy_ne y) Hy).
    unfold find_column_index_by_header. rewrite Hnorm.
    destruct row0 as [|x row0]; [done|]. simpl.
    unfold cell_matches.
    replace (Str.contains "" (normalize x)) with true
      by (by destruct (normalize x)).
    by rewrite orb_true_r. }
  split; [done|].
  apply table_attempt_Some.
  exists row0, rest, r, 0%nat, (first :: others), first.
  split_and!; try done.
  apply find_row_index_by_label_Some in Hrow as (row & Hrow & Hm & _).
  rewrite Hr in Hrow. injection Hrow as <-.
  simpl in Hm. rewrite cell_matches_contains in Hm.
  intros Hempty. unfold normalize in Hm. by rewrite Hempty in Hm.
Qed.

(** X15. The tables of the target page are tried in order and the first
    that succeeds ends the run: what follows it is never built, so a
    malformed table after it does no harm, while a table whose build
    raises, reached before any success, ends the run with that error. *)
Theorem extract_loop_first_outcome (pre post : list Block) (t : Block)
    (idx : gmap string Block) (page : Z) (year : option string) :
  (∀ t', t' ∈ pre →
         ∃ matrix', build_table_matrix t' idx = Ok matrix'
                    ∧ table_attempt matrix' page year = Ok None) →
  (∀ matrix v d,
     build_table_matrix t idx = Ok matrix →
     table_attempt matrix page year = Ok (Some (v, d)) →
     extract_loop (pre ++ t :: post) idx page year = Ok (Some v, d))
  ∧ (∀ e, build_table_matrix t idx = Raise e →
          extract_loop (pre ++ t :: post) idx page year = Raise e).
Proof.
  intros Hpre. split.
  - intros matrix v d Hbuild Hattempt. apply extract_loop_Some.
    by exists pre, t, post, matrix.
  - intros e Hraise. by apply extract_loop_raises.
Qed.

(** X16. When no CELL child of a TABLE block has an index below 1 the
    extraction returns, and its result is one of five: the reason
    "No blocks returned" for an empty collection, the reason that no page
    holds the phrase, the reason that the target page has no tables, the
    reason that every table of the page was built and gave nothing, or a
    non-empty value. *)
Theorem analyze_pdf_and_extract_tolerant (blocks : list Block)
    (year : option string) :
  let idx := (build_block_index blocks).1 in
  let target := find_target_page (detect_pages blocks) blocks idx in
  Forall (λ t, BlockType t = "TABLE" → Forall from_one (cell_children t idx))
    blocks →
  ∃ r,
    analyze_pdf_and_extract blocks year = Ok r
    ∧ ((blocks = [] ∧ r = (None, "No blocks returned"))
       ∨ (blocks ≠ [] ∧ target = None
          ∧ r = (None,
                 "Could not find page containing 'STATEMENT OF PROFIT OR LOSS'"))
       ∨ (∃ page, target = Some page ∧ get_tables_on_page blocks page = []
                  ∧ r = (None, "No tables found on target page"))
       ∨ (∃ page, target = Some page ∧ get_tables_on_page blocks page ≠ []
                  ∧ (∀ t, t ∈ get_tables_on_page blocks page →
                          ∃ matrix, build_table_matrix t idx = Ok matrix
                                    ∧ table_attempt matrix page year = Ok None)
                  ∧ r = (None, "Revenue not found in tables on target page"))
       ∨ (∃ page v d, target = Some page ∧ r = (Some v, d) ∧ v ≠ "")).
Proof.
  intros idx target Hall. subst idx target. unfold analyze_pdf_and_extract.
  destruct blocks as [|b bs]; [eexists; split; [done|by left]|].
  set (blocks := b :: bs) in *.
  destruct (build_block_index blocks) as [idx children]. cbn [fst] in *.
  destruct (find_target_page (detect_pages blocks) blocks idx) as [page|].
  2: { eexists. split; [done|]. right. by left. }
  assert (Forall (λ t, Forall from_one (cell_children t idx))
            (get_tables_on_page blocks page)) as Htables.
  { apply Forall_forall. intros t [[Hk _] Hin]%list_elem_of_filter.
    rewrite Forall_forall in Hall. by apply Hall. }
  destruct (extract_loop_returns idx (get_tables_on_page blocks page) page
              year Htables) as [r Hr].
  pose proof (extract_loop_outcome (get_tables_on_page blocks page) idx page
                year) as Hloop.
  rewrite Hr in Hloop.
  destruct (get_tables_on_page blocks page) as [|t tables] eqn:Ht.
  { eexists. split; [done|]. do 2 right. left. by exists page. }
  exists r. split; [done|]. do 3 right.
  destruct r as [[v|] d].
  - right. by exists page, v, d.
  - left. destruct Hloop as [-> Hnone]. exists page. fold blocks.
    rewrite Ht. split_and!; [done|done|exact Hnone|done].
Qed.

(** X17. A value that the extraction returns is the stripped text of the
    cell at the revenue row and the resolved year column of the matrix of
    a table of the target page, all tables before it on that page having
    been built without a result; the value is non-empty and trimmed and
    the diagnostic is that of this matrix. *)
Theorem analyze_pdf_and_extract_value (blocks : list Block)
    (year : option string) (v d : string) :
  analyze_pdf_and_extract blocks year = Ok (Some v, d) →
  ∃ page pre t post matrix row0 rest r c row cell,
    find_target_page (detect_pages blocks) blocks (build_block_index blocks).1
    = Some page
    ∧ get_tables_on_page blocks page = pre ++ t :: post
    ∧ (∀ t', t' ∈ pre →
         ∃ matrix',
           build_table_matrix t' (build_block_index blocks).1 = Ok matrix'
           ∧ table_attempt matrix' page year = Ok None)
    ∧ build_table_matrix t (build_block_index blocks).1 = Ok matrix
    ∧ matrix = row0 :: rest
    ∧ find_row_index_by_label matrix "Revenue" = Some r
    ∧ year_column matrix row0 year = Some c
    ∧ matrix !! r = Some row ∧ row !! c = Some cell
    ∧ v = Str.strip cell ∧ v ≠ "" ∧ Str.strip v = v
    ∧ d = diagnostic page matrix row0.
Proof.
  intros (page & Htarget & Hloop)%analyze_pdf_and_extract_Some.
  apply extract_loop_Some in Hloop
    as (pre & t & post & matrix & Htables & Hpre & Hbuild & Hattempt).
  apply table_attempt_Some in Hattempt
    as (row0 & rest & r & c & row & cell & Hm & _ & Hrow & Hcol & Hr & Hc
        & Hv & Hne & Hd).
  exists page, pre, t, post, matrix, row0, rest, r, c, row, cell.
  split_and!; try done. rewrite Hv. apply strip_idemp.
Qed.

(** X18. After the analysis [main] leaves one of two outcomes: exit status
    0 with the two lines "Extracted Revenue: value" and "Debug: diagnostic"
    on the standard output, exactly when the analysis returned a value; or
    exit status 2 with the two lines "Failed to extract Revenue." and
    "Reason: reason" on the standard error, exactly when it returned an
    absence. The second line is never left out, and an exception of the
    analysis passes through. *)
Theorem main_outcomes (blocks : list Block) (year : option string) :
  (∀ v d, analyze_pdf_and_extract blocks year = Ok (Some v, d) →
          main blocks year
          = Ok {| exit_code := 0;
                  stdout := ["Extracted Revenue: " +:+ v; "Debug: " +:+ d];
                  stderr := [] |})
  ∧ (∀ reason, analyze_pdf_and_extract blocks year = Ok (None, reason) →
          main blocks year
          = Ok {| exit_code := 2;
                  stdout := [];
                  stderr := ["Failed to extract Revenue.";
                             "Reason: " +:+ reason] |})
  ∧ (∀ e, analyze_pdf_and_extract blocks year = Raise e →
          main blocks year = Raise e).
Proof.
  split_and!.
  - intros v d Hrun. unfold main. rewrite Hrun. simpl.
    apply analyze_pdf_and_extract_Some in Hrun as (page & _ & Hloop).
    apply extract_loop_Some in Hloop as (pre & t & post & m & _ & _ & _ & Ha).
    apply table_attempt_Some in Ha
      as (row0 & rest & r & c & row & cell & _ & _ & _ & _ & _ & _ & _ & Hne
          & ->).
    rewrite (proj2 (truthy_ne v) Hne), diagnostic_truthy. done.
  - intros reason Hrun. unfold main. rewrite Hrun. simpl.
    pose proof (analyze_pdf_and_extract_outcomes blocks year)
      as (_ & _ & _ & _ & Hshape).
    rewrite Hrun in Hshape.
    replace (Str.truthy reason) with true; [done|].
    repeat (apply elem_of_cons in Hshape as [->|Hshape]; [done|]).
    by apply elem_of_nil in Hshape.
  - intros e Hrun. unfold main. by rewrite Hrun.
Qed.

End analysis_claims_more.

(** *** The order of the blocks *)

Section order.

Lemma index_lookup_iff bs k b :
  NoDup (Id <$> bs) →
  (build_block_index bs).1 !! k = Some b ↔ b ∈ bs ∧ Id b = k.
Proof.
  intros Hnd. split; [apply index_lookup_inv|].
  intros [Hin <-]. by apply index_lookup.
Qed.

Lemma children_lookup_iff bs k l :
  NoDup (Id <$> bs) →
  (build_block_index bs).2 !! k = Some l ↔
  l ≠ [] ∧ ∃ b, b ∈ bs ∧ Id b = k ∧ structural_children b = l.
Proof.
  intros Hnd. split; [apply children_lookup_Some|].
  intros (Hne & b & Hin & <- & <-). rewrite children_lookup by done.
  by destruct (structural_children b).
Qed.

Lemma build_block_index_perm bs bs' :
  bs ≡ₚ bs' → NoDup (Id <$> bs) →
  build_block_index bs = build_block_index bs'.
Proof.
  intros Hperm Hnd.
  assert (NoDup (Id <$> bs')) as Hnd' by (by rewrite <-Hperm).
  rewrite (surjective_pairing (build_block_index bs)),
          (surjective_pairing (build_block_index bs')).
  f_equal; apply map_eq; intros k; apply option_eq.
  - intros b. rewrite !index_lookup_iff by done. by rewrite Hperm.
  - intros l. rewrite !children_lookup_iff by done.
    by setoid_rewrite Hperm.
Qed.

(** X19. With pairwise distinct identifiers the index does not depend on
    the order of the blocks, and the whole extraction depends on that order
    only through the order of the tables of a page: two collections that
    are permutations of each other and list the TABLE blocks of every page
    in the same order give the same result. *)
Theorem analyze_pdf_and_extract_order (bs bs' : list Block) :
  bs ≡ₚ bs' → NoDup (Id <$> bs) →
  build_block_index bs = build_block_index bs'
  ∧ ((∀ p, get_tables_on_page bs p = get_tables_on_page bs' p) →
     ∀ year, analyze_pdf_and_extract bs year
             = analyze_pdf_and_extract bs' year).
Proof.
  intros Hperm Hnd. split; [by apply build_block_index_perm|].
  intros Htables year. unfold analyze_pdf_and_extract.
  destruct bs as [|b bs].
  { apply Permutation_nil_l in Hperm as <-. done. }
  destruct bs' as [|b' bs'].
  { by apply Permutation_nil_r in Hperm. }
  rewrite <-(build_block_index_perm _ _ Hperm Hnd).
  destruct (build_block_index (b :: bs)) as [idx children].
  rewrite <-(detect_pages_perm _ _ Hperm).
  rewrite <-(find_target_page_ext (detect_pages (b :: bs)) (b :: bs)
               (b' :: bs') idx)
    by (intros q; by apply page_contains_phrase_perm).
  destruct (find_target_page _ _ _) as [page|]; [|done].
  by rewrite Htables.
Qed.

End order.

(** *** A row index below 1, in general *)

Section wrap_around.

Variable id_to_block : gmap string Block.

Lemma position_negative len i :
  i < 0 →
  PyList.position len i
  = if - Z.of_nat len <=? i then Ok (Z.to_nat (Z.of_nat len + i))
    else Raise IndexError.
Proof.
  intros Hi. unfold PyList.position.
  by rewrite (proj2 (Z.leb_gt _ _)) by lia.
Qed.

(** X20. A cell whose row index [r] is below 1 passes the guard whatever
    the grid. When the grid has fewer than [1 - r] rows the guard raises
    [IndexError]; otherwise the cell is taken for the row counted from the
    end of the grid, and with a column inside that row and a non-empty
    text the text is written there, [1 - r] rows above the end. *)
Theorem place_cell_row_below_one (matrix : Matrix) (cell : Block)
    (r c : Z) :
  RowIndex cell = Some r → ColumnIndex cell = Some c → r < 1 → 1 ≤ c →
  (Z.of_nat (length matrix) < 1 - r →
     place_cell id_to_block matrix cell = Raise IndexError)
  ∧ (∀ row,
       1 - r ≤ Z.of_nat (length matrix) →
       matrix !! Z.to_nat (Z.of_nat (length matrix) + (r - 1)) = Some row →
       c ≤ Z.of_nat (length row) →
       extract_text_from_block cell id_to_block ≠ "" →
       place_cell id_to_block matrix cell
       = Ok (<[Z.to_nat (Z.of_nat (length matrix) + (r - 1)) :=
                 <[Z.to_nat (c - 1) :=
                     extract_text_from_block cell id_to_block]> row]>
               matrix)).
Proof.
  intros Hr Hc Hneg Hcol.
  assert (place_cell id_to_block matrix cell
          = row ← PyList.getitem matrix (r - 1);
            if (c - 1 <? Z.of_nat (length row))
               && Str.truthy (extract_text_from_block cell id_to_block)
            then row' ← PyList.setitem row (c - 1)
                          (extract_text_from_block cell id_to_block);
                 PyList.setitem matrix (r - 1) row'
            else Ok matrix) as Hguard.
  { unfold place_cell. rewrite Hr, Hc. simpl.
    by rewrite (proj2 (Z.ltb_lt _ _)) by lia. }
  rewrite Hguard. split.
  - intros Hshort. unfold PyList.getitem.
    rewrite position_negative by lia.
    by rewrite (proj2 (Z.leb_gt _ _)) by lia.
  - intros row Hlong Hrow Hwidth Htext.
    unfold PyList.getitem. rewrite position_negative by lia.
    rewrite (proj2 (Z.leb_le _ _)) by lia. simpl. rewrite Hrow. simpl.
    rewrite (proj2 (Z.ltb_lt _ _)) by lia.
    rewrite (proj2 (truthy_ne _) Htext). simpl.
    rewrite setitem_in_range by lia. simpl.
    unfold PyList.setitem. rewrite position_negative by lia.
    by rewrite (proj2 (Z.leb_le _ _)) by lia.
Qed.

End wrap_around.

(** *** The tables of a page *)

Section tables.

(** X21. The tables of a page are the TABLE blocks that carry that page
    number, in the order of the collection and as often as they occur
    there; a TABLE block without a page number is on no page; the tables of
    a concatenation are those of the parts, one after the other; and a page
    that has a table is always among the pages that are probed. *)
Theorem get_tables_on_page_partition (blocks : list Block) (p : Z) :
  (∀ t, t ∈ get_tables_on_page blocks p ↔
        t ∈ blocks ∧ BlockType t = "TABLE" ∧ Page t = Some p)
  ∧ get_tables_on_page blocks p `sublist_of` blocks
  ∧ (∀ bs1 bs2,
       blocks = bs1 ++ bs2 →
       get_tables_on_page blocks p
       = get_tables_on_page bs1 p ++ get_tables_on_page bs2 p)
  ∧ (get_tables_on_page blocks p ≠ [] → p ∈ detect_pages blocks).
Proof.
  split_and!.
  - intros t. unfold get_tables_on_page. rewrite list_elem_of_filter. tauto.
  - apply sublist_filter.
  - intros bs1 bs2 ->. apply filter_app.
  - intros Hne. destruct (get_tables_on_page blocks p) as [|t ts] eqn:Ht;
      [done|].
    assert (t ∈ get_tables_on_page blocks p) as Hin by (rewrite Ht; by left).
    apply list_elem_of_filter in Hin as [[_ Hp] Hin].
    apply elem_of_detect_pages. by exists t.
Qed.

End tables.

(** *** The further properties on the sample collections *)

Section more_instances.

Let blocks : list Block := Sample.statement "Revenue".
Let idx : gmap string Block := (build_block_index blocks).1.
Let title : Block := Sample.line "l1" ["w1"; "w2"; "w3"; "w4"; "w5"].
Let matrix : Matrix :=
  [[""; "2023"; "2024"]; ["Revenue"; "100"; "120"]].
Let diag : string := "page=1, table_extracted_rows=2 cols=3".

Ltac by_decide := apply (bool_decide_unpack _); vm_compute; exact I.

Lemma build_block_index_last_wins_witness :
  (build_block_index Cases.duplicate_ids).1 !! "a" = Some Cases.second_a.
Proof.
  apply (build_block_index_last_wins
           [Cases.first_a; Sample.word "w" "once"] [] Cases.second_a).
  constructor.
Defined.

Lemma build_block_index_children_witness :
  (build_block_index Cases.duplicate_ids).2 !! "a" = Some ["w"]
  ∧ (build_block_index Cases.duplicate_ids).2 !! "w" = None.
Proof.
  destruct (build_block_index_children Cases.duplicate_ids)
    as (_ & Hnone & Hlast).
  split.
  - apply (Hlast [] Cases.first_a [Sample.word "w" "once"; Cases.second_a]);
      [reflexivity|discriminate|by_decide].
  - apply Hnone. intros b Hb Hid.
    assert (Forall (λ b, Id b = "w" → structural_children b = [])
              Cases.duplicate_ids) as Hall by by_decide.
    rewrite Forall_forall in Hall. exact (Hall b Hb Hid).
Defined.

Lemma extract_text_from_block_trimmed_witness :
  Str.strip (extract_text_from_block title idx)
  = extract_text_from_block title idx
  ∧ extract_text_from_block title ∅ = "".
Proof.
  split.
  - apply (extract_text_from_block_trimmed title idx). discriminate.
  - apply (extract_text_from_block_trimmed title ∅); [discriminate|].
    by_decide.
Defined.

Lemma page_contains_phrase_order_witness :
  page_contains_phrase blocks idx 1 PHRASE
  = page_contains_phrase (reverse blocks) idx 1 PHRASE.
Proof.
  destruct (page_contains_phrase_order blocks (reverse blocks) idx 1 PHRASE)
    as (_ & Hperm & _).
  apply Hperm. apply Permutation_sym, reverse_Permutation.
Defined.

Lemma target_page_order_witness :
  find_target_page (detect_pages blocks) blocks idx
  = find_target_page (detect_pages (reverse blocks)) (reverse blocks) idx.
Proof.
  apply (target_page_order blocks (reverse blocks) idx).
  apply Permutation_sym, reverse_Permutation.
Defined.

Lemma build_table_matrix_rectangular_witness :
  build_table_matrix Sample.the_table idx = Ok matrix
  ∧ ∃ max_row max_col : Z,
      Z.of_nat (length matrix) = max_row
      ∧ Forall (λ row, Z.of_nat (length row) = max_col) matrix.
Proof.
  assert (build_table_matrix Sample.the_table idx = Ok matrix) as Hbuild
      by (vm_compute; reflexivity).
  split; [exact Hbuild|].
  destruct (build_table_matrix_rectangular idx Sample.the_table matrix Hbuild)
    as (max_row & max_col & _ & _ & Hrows & Hcols & _).
  exists max_row, max_col. split; [exact Hrows|exact Hcols].
Defined.

Lemma build_table_matrix_raises_only_stray_witness :
  Forall from_one (cell_children Sample.the_table idx)
  ∧ (∃ m, build_table_matrix Sample.the_table idx = Ok m)
  ∧ ∃ cell, cell ∈ cell_children Sample.stray_table Cases.stray_index
            ∧ (default 1 (RowIndex cell) < 1
               ∨ default 1 (ColumnIndex cell) < 1).
Proof.
  assert (Forall from_one (cell_children Sample.the_table idx)) as Hall
      by by_decide.
  destruct (build_table_matrix_raises_only_stray idx Sample.the_table)
    as [Hreturns _].
  destruct (build_table_matrix_raises_only_stray Cases.stray_index
              Sample.stray_table) as [_ Hraises].
  split; [exact Hall|]. split; [exact (Hreturns Hall)|].
  apply (Hraises IndexError). vm_compute. reflexivity.
Defined.

Lemma build_table_matrix_last_writer_witness :
  Forall one_based
    (cell_children Cases.crowded_table
       (build_block_index Cases.crowded_cells).1)
  ∧ build_table_matrix Cases.crowded_table
      (build_block_index Cases.crowded_cells).1 = Ok [["B"]]
  ∧ last_written (build_block_index Cases.crowded_cells).1
      (cell_children Cases.crowded_table
         (build_block_index Cases.crowded_cells).1) 0 0 = "B".
Proof.
  assert (Forall one_based
            (cell_children Cases.crowded_table
               (build_block_index Cases.crowded_cells).1)) as Hone
      by by_decide.
  assert (build_table_matrix Cases.crowded_table
            (build_block_index Cases.crowded_cells).1 = Ok [["B"]]) as Hbuild
      by (vm_compute; reflexivity).
  split; [exact Hone|]. split; [exact Hbuild|].
  destruct (build_table_matrix_last_writer
              (build_block_index Cases.crowded_cells).1
              Cases.crowded_table Hone) as (m & Hm & Hlast).
  rewrite Hbuild in Hm. injection Hm as <-.
  symmetry. apply (Hlast 0%nat 0%nat "B"). reflexivity.
Defined.

Lemma find_row_index_by_label_first_witness :
  find_row_index_by_label Cases.two_header_rows "Revenue" = Some 2%nat
  ∧ (2 < length Cases.two_header_rows)%nat.
Proof.
  assert (find_row_index_by_label Cases.two_header_rows "Revenue"
          = Some 2%nat) as Hfind by (vm_compute; reflexivity).
  split; [exact Hfind|].
  destruct (find_row_index_by_label_first Cases.two_header_rows "Revenue")
    as (_ & _ & Hbound).
  exact (Hbound 2%nat Hfind).
Defined.

Lemma find_column_index_by_header_first_witness :
  find_column_index_by_header Cases.two_header_rows "2024" = Some 2%nat
  ∧ ∃ row0, Cases.two_header_rows !! 0%nat = Some row0
            ∧ first_match_at (normalize "2024") row0 2.
Proof.
  assert (find_column_index_by_header Cases.two_header_rows "2024"
          = Some 2%nat) as Hfind by (vm_compute; reflexivity).
  split; [exact Hfind|].
  destruct (find_column_index_by_header_first Cases.two_header_rows "2024")
    as (Hsome & _ & _).
  destruct (proj1 (Hsome 2%nat) Hfind)
    as [Hfirst|(row0 & row1 & H0 & Hnone & _)]; [exact Hfirst|].
  injection H0 as <-. apply Forall_forall with (x := "2024") in Hnone.
  - vm_compute in Hnone. discriminate Hnone.
  - do 2 right. left.
Defined.

Lemma unmatched_year_as_no_year_witness :
  analyze_pdf_and_extract blocks (Some "")
  = analyze_pdf_and_extract blocks None
  ∧ analyze_pdf_and_extract blocks (Some "1999") = Ok (Some "100", diag).
Proof.
  split.
  - apply (unmatched_year_as_no_year blocks ""). by left.
  - rewrite (unmatched_year_as_no_year blocks "1999").
    + vm_compute. reflexivity.
    + right. intros page t m Hpage Hin Hbuild.
      assert (find_target_page (detect_pages blocks) blocks
                (build_block_index blocks).1 = Some 1) as Hone
          by (vm_compute; reflexivity).
      rewrite Hone in Hpage. injection Hpage as <-.
      assert (get_tables_on_page blocks 1 = [Sample.the_table]) as Htables
          by (vm_compute; reflexivity).
      rewrite Htables in Hin. apply list_elem_of_singleton in Hin as ->.
      assert (build_table_matrix Sample.the_table (build_block_index blocks).1
              = Ok matrix) as Hmatrix by (vm_compute; reflexivity).
      rewrite Hmatrix in Hbuild. injection Hbuild as <-.
      vm_compute. reflexivity.
Defined.

Lemma blank_year_selects_label_witness :
  table_attempt matrix 1 (Some " ") = Ok (Some ("Revenue", diag)).
Proof.
  apply (blank_year_selects_label matrix [""; "2023"; "2024"]
           [["Revenue"; "100"; "120"]] 1 " " 1 "Revenue" ["100"; "120"]);
    (reflexivity || discriminate).
Defined.

Lemma extract_loop_first_outcome_witness :
  extract_loop [Sample.the_table; Cases.late_stray_table]
    (build_block_index Cases.statement_then_stray).1 1 (Some "2024")
  = Ok (Some "120", diag)
  ∧ extract_loop [Cases.late_stray_table; Sample.the_table]
      (build_block_index Cases.stray_then_statement).1 1 (Some "2024")
    = Raise IndexError.
Proof.
  split.
  - apply (extract_loop_first_outcome [] [Cases.late_stray_table]
             Sample.the_table
             (build_block_index Cases.statement_then_stray).1 1
             (Some "2024")) with (matrix := matrix).
    + intros t' Hin. by apply elem_of_nil in Hin.
    + vm_compute. reflexivity.
    + vm_compute. reflexivity.
  - apply (extract_loop_first_outcome [] [Sample.the_table]
             Cases.late_stray_table
             (build_block_index Cases.stray_then_statement).1 1
             (Some "2024")).
    + intros t' Hin. by apply elem_of_nil in Hin.
    + vm_compute. reflexivity.
Defined.

Lemma analyze_pdf_and_extract_tolerant_witness :
  Forall (λ t, BlockType t = "TABLE" → Forall from_one (cell_children t idx))
    blocks
  ∧ ∃ r, analyze_pdf_and_extract blocks (Some "2024") = Ok r.
Proof.
  assert (Forall (λ t, BlockType t = "TABLE" →
                       Forall from_one (cell_children t idx)) blocks)
    as Hall by by_decide.
  split; [exact Hall|].
  destruct (analyze_pdf_and_extract_tolerant blocks (Some "2024") Hall)
    as (r & Hr & _).
  by exists r.
Defined.

Lemma analyze_pdf_and_extract_value_witness :
  analyze_pdf_and_extract blocks (Some "2024") = Ok (Some "120", diag)
  ∧ ∃ page t, find_target_page (detect_pages blocks) blocks idx = Some page
              ∧ t ∈ get_tables_on_page blocks page.
Proof.
  assert (analyze_pdf_and_extract blocks (Some "2024")
          = Ok (Some "120", diag)) as Hrun by (vm_compute; reflexivity).
  split; [exact Hrun|].
  destruct (analyze_pdf_and_extract_value blocks (Some "2024") "120" diag
              Hrun)
    as (page & pre & t & post & _ & _ & _ & _ & _ & _ & _ & Hpage & Htables
        & _).
  exists page, t. split; [exact Hpage|].
  rewrite Htables. apply elem_of_app. right. by left.
Defined.

Lemma main_outcomes_witness :
  main blocks (Some "2024")
  = Ok {| exit_code := 0;
          stdout := ["Extracted Revenue: 120";
                     "Debug: page=1, table_extracted_rows=2 cols=3"];
          stderr := [] |}
  ∧ main (Sample.statement "Sales") None
    = Ok {| exit_code := 2;
            stdout := [];
            stderr := ["Failed to extract Revenue.";
                       "Reason: Revenue not found in tables on target page"] |}.
Proof.
  destruct (main_outcomes blocks (Some "2024")) as (Hvalue & _ & _).
  destruct (main_outcomes (Sample.statement "Sales") None)
    as (_ & Hreason & _).
  split.
  - apply (Hvalue "120" diag). vm_compute. reflexivity.
  - apply (Hreason "Revenue not found in tables on target page").
    vm_compute. reflexivity.
Defined.

Lemma analyze_pdf_and_extract_order_witness :
  blocks ≡ₚ Cases.swapped_statement
  ∧ NoDup (Id <$> blocks)
  ∧ analyze_pdf_and_extract blocks (Some "2024")
    = analyze_pdf_and_extract Cases.swapped_statement (Some "2024").
Proof.
  assert (blocks ≡ₚ Cases.swapped_statement) as Hperm by apply perm_swap.
  assert (NoDup (Id <$> blocks)) as Hnd by by_decide.
  split; [exact Hperm|]. split; [exact Hnd|].
  apply (analyze_pdf_and_extract_order blocks Cases.swapped_statement Hperm
           Hnd).
  intros p. reflexivity.
Defined.

Lemma place_cell_row_below_one_witness :
  place_cell Cases.stray_index [] Cases.stray_cell = Raise IndexError
  ∧ place_cell Cases.stray_index [["A"]; ["B"]] Cases.stray_cell
    = Ok [["A"]; ["X"]].
Proof.
  destruct (place_cell_row_below_one Cases.stray_index [] Cases.stray_cell
              0 1 eq_refl eq_refl) as [Hraise _]; [lia|lia|].
  destruct (place_cell_row_below_one Cases.stray_index [["A"]; ["B"]]
              Cases.stray_cell 0 1 eq_refl eq_refl) as [_ Hwrap]; [lia|lia|].
  split.
  - apply Hraise. simpl. lia.
  - rewrite (Hwrap ["B"]).
    + vm_compute. reflexivity.
    + simpl. lia.
    + reflexivity.
    + simpl. lia.
    + vm_compute. discriminate.
Defined.

Lemma get_tables_on_page_partition_witness :
  get_tables_on_page blocks 1 ≠ [] ∧ 1 ∈ detect_pages blocks.
Proof.
  assert (get_tables_on_page blocks 1 ≠ []) as Hne
      by (vm_compute; discriminate).
  split; [exact Hne|].
  destruct (get_tables_on_page_partition blocks 1) as (_ & _ & _ & Hpage).
  exact (Hpage Hne).
Defined.

End more_instances.
